(** * Frequent Directions sketch engine ([frequent_direction/fd_sketch.py])

    A shallow embedding of the class [FrequentDirection] and of the two
    metric helpers of the module, with the properties of its specification.

    Numbers.  The Python code computes on numpy [float64] values and calls
    [numpy.linalg.svd].  Neither is re-implemented here: the scalar
    operations the code uses form the interface [Scalar], the routines of
    [numpy.linalg] form the interface [Linalg], and the algebraic facts a
    proof relies on are listed, one by one, in [ScalarLaws] and
    [SvdContract].  All of them hold in exact (real) arithmetic; the
    instance over [Z] makes every definition run on integer data, and the
    instance over the kernel's binary64 numbers runs them on the values
    of the program, where a square can overflow.  A property that needs
    [ScalarLaws] is a property of the code in exact arithmetic only, and
    says so.

    Effects.  Every method mutates [self] and may raise; a raise keeps the
    mutations made before it.  Methods are therefore actions of the monad
    [Py A = engine -> (exn + A) * engine]. *)

From Stdlib Require Import String ZArith Bool Lia Arith List Sorted Permutation.
From Stdlib Require PrimFloat.
Import ListNotations.

Set Implicit Arguments.
Local Open Scope Z_scope.

(* ================================================================== *)
(** ** Python values used by the module *)

(** The exceptions that can leave a method.  The two [raise] statements of
    the source are [ValueError]s told apart by their message; numpy and
    the interpreter contribute the others. *)
Inductive exn : Type :=
| ValueError (msg : string)
| IndexError
| TypeError.

(** [initialize], line 41. *)
Definition DimensionError : exn :=
  ValueError "Error: ell must be smaller than M * 2".

(** [get_result], line 52. *)
Definition ConfigurationError : exn :=
  ValueError "Error: ell + k must not be greater than N".

(** Raised by [np.zeros] on a negative dimension. *)
Definition NegativeDimensions : exn :=
  ValueError "negative dimensions are not allowed".

(** Raised by the row assignment [mat_b[i, :] = row] when [row] cannot be
    broadcast to the width of the buffer. *)
Definition BroadcastError : exn :=
  ValueError "could not broadcast input array".

(** [seq[i]] with Python's negative indices. *)
Definition py_index {A : Type} (l : list A) (i : Z) : option A :=
  let n := Z.of_nat (length l) in
  if (0 <=? i) && (i <? n) then nth_error l (Z.to_nat i)
  else if (- n <=? i) && (i <? 0) then nth_error l (Z.to_nat (n + i))
  else None.

(** [seq[:i]]. *)
Definition py_slice_to {A : Type} (i : Z) (l : list A) : list A :=
  if 0 <=? i then firstn (Z.to_nat i) l
  else firstn (Z.to_nat (Z.of_nat (length l) + i)) l.

(** [list(range(n))]: empty when [n <= 0]. *)
Definition py_range (n : Z) : list nat := seq 0 (Z.to_nat n).

(** [np.nonzero(flags)[0].tolist()]: the positions holding [True], in
    increasing order. *)
Fixpoint nonzero_from (i : nat) (flags : list bool) : list nat :=
  match flags with
  | [] => []
  | f :: fs => if f then i :: nonzero_from (S i) fs else nonzero_from (S i) fs
  end.

Definition nonzero (flags : list bool) : list nat := nonzero_from 0 flags.

(** In-place replacement of the element at position [i]. *)
Fixpoint set_nth {A : Type} (i : nat) (x : A) (l : list A) : list A :=
  match l, i with
  | [], _ => []
  | _ :: t, O => x :: t
  | h :: t, S j => h :: set_nth j x t
  end.

(* ================================================================== *)
(** ** Scalars and dense matrices *)

(** The [float64] operations that occur in the source. *)
Class Scalar (F : Type) : Type := {
  zero : F;                      (* 0.0 *)
  add : F -> F -> F;             (* +, inside np.dot and np.sum *)
  sub : F -> F -> F;             (* - *)
  mul : F -> F -> F;             (* *, and x ** 2 as x * x *)
  ltb : F -> F -> bool;          (* < *)
  sqrt : F -> F;                 (* math.sqrt *)
  round7_is_zero : F -> bool     (* round(s, 7) == 0 *)
}.

(** [a <= b], read off the strict test of the interface. *)
Definition le {F : Type} `{Scalar F} (a b : F) : Prop := ltb b a = false.

(** A matrix is the list of its rows. *)
Abbreviation matrix F := (list (list F)) (only parsing).

Definition ncols {F : Type} (b : matrix F) : nat := length (hd [] b).

(** [b.shape == (n, m)]. *)
Definition has_shape {F : Type} (n m : nat) (b : matrix F) : Prop :=
  length b = n /\ Forall (fun r => length r = m) b.

Section Matrices.
Context {F : Type} `{Scalar F}.

(** [np.zeros([n, m])]. *)
Definition np_zeros (n : Z) (m : nat) : exn + matrix F :=
  if n <? 0 then inl NegativeDimensions
  else inr (repeat (repeat zero m) (Z.to_nat n)).

(** [np.sum(v)]. *)
Definition vsum (v : list F) : F := fold_left add v zero.

(** [np.sum(b, axis = 1)]. *)
Definition row_sums (b : matrix F) : list F := map vsum b.

Fixpoint zip_mul (u v : list F) : list F :=
  match u, v with
  | x :: u', y :: v' => mul x y :: zip_mul u' v'
  | _, _ => []
  end.

Definition inner (u v : list F) : F := vsum (zip_mul u v).

Definition column (c : nat) (b : matrix F) : list F :=
  map (fun r => nth c r zero) b.

(** [b.T].  A list of rows does not record the width of a matrix
    without rows: this and [dot] stand for numpy's on matrices with at
    least one row. *)
Definition transpose (b : matrix F) : matrix F :=
  map (fun c => column c b) (seq 0 (ncols b)).

(** [np.dot(a, b)] of two matrices. *)
Definition dot (a b : matrix F) : matrix F :=
  map (fun r => map (fun c => inner r (column c b)) (seq 0 (ncols b))) a.

(** [np.diagflat(d)]. *)
Definition diagflat (d : list F) : matrix F :=
  map (fun i => map (fun j => if Nat.eqb i j then nth i d zero else zero)
                    (seq 0 (length d)))
      (seq 0 (length d)).

(** [a - b], entry by entry, for two matrices of the same shape (numpy
    raises or broadcasts on others, which this does not follow). *)
Definition msub (a b : matrix F) : matrix F :=
  map (fun rs => map (fun xy => sub (fst xy) (snd xy))
                     (combine (fst rs) (snd rs)))
      (combine a b).

(** [mat_b[i, :] = row].  The index is resolved first; the right-hand
    side is then broadcast to the width of the selected row, which numpy
    accepts for a row of that width and for a row of length one. *)
Definition assign_row (b : matrix F) (i : nat) (row : list F)
  : exn + matrix F :=
  match nth_error b i with
  | None => inl IndexError
  | Some old =>
      if Nat.eqb (length row) (length old) then inr (set_nth i row b)
      else match row with
           | [x] => inr (set_nth i (repeat x (length old)) b)
           | _ => inl BroadcastError
           end
  end.
End Matrices.

(** [numpy.linalg.svd(b, full_matrices=False)], returning
    [(mat_u, vec_sigma, mat_v)]. *)
Class Linalg (F : Type) : Type := {
  svd : matrix F -> matrix F * list F * matrix F
}.

(* ================================================================== *)
(** ** The state of a [FrequentDirection] object *)

(** The six attributes assigned by [__init__].  [None] is Python's [None]. *)
Record engine (F : Type) : Type := Engine {
  ell : Z;
  k : Z;
  M : option nat;
  N : Z;
  mat_b : option (matrix F);
  zero_rows : option (list nat)
}.

Arguments Engine {F}.
Arguments ell {F}.
Arguments k {F}.
Arguments M {F}.
Arguments N {F}.
Arguments mat_b {F}.
Arguments zero_rows {F}.

(** An action on [self]: its outcome (an exception or a value) and the
    state it leaves.  A raise keeps the state reached so far. *)
Definition Py (F A : Type) : Type := engine F -> (exn + A) * engine F.

Definition ret {F A : Type} (a : A) : Py F A := fun e => (inr a, e).

Definition raise {F A : Type} (x : exn) : Py F A := fun e => (inl x, e).

Definition bind {F A B : Type} (m : Py F A) (f : A -> Py F B) : Py F B :=
  fun e => match m e with
           | (inl x, e') => (inl x, e')
           | (inr a, e') => f a e'
           end.

Definition get {F : Type} : Py F (engine F) := fun e => (inr e, e).

Definition modify {F : Type} (f : engine F -> engine F) : Py F unit :=
  fun e => (inr tt, f e).

(** Lifting of a library call that may raise. *)
Definition lift {F A : Type} (r : exn + A) : Py F A := fun e => (r, e).

(** Access to an attribute that must not be [None]. *)
Definition subscriptable {F A : Type} (o : option A) : Py F A :=
  match o with
  | Some a => ret a
  | None => raise TypeError
  end.

Declare Scope py_scope.
Delimit Scope py_scope with py.
Notation "x <- m ;; f" := (bind m (fun x => f))
  (at level 61, m at next level, right associativity) : py_scope.
Notation "m ;; f" := (bind m (fun _ => f))
  (at level 61, right associativity) : py_scope.
Local Open Scope py_scope.

(** Attribute assignments [self.x = v]. *)
Definition set_M {F} (v : option nat) : Py F unit :=
  modify (fun e => Engine (ell e) (k e) v (N e) (mat_b e) (zero_rows e)).
Definition set_N {F} (v : Z) : Py F unit :=
  modify (fun e => Engine (ell e) (k e) (M e) v (mat_b e) (zero_rows e)).
Definition set_mat_b {F} (v : option (matrix F)) : Py F unit :=
  modify (fun e => Engine (ell e) (k e) (M e) (N e) v (zero_rows e)).
Definition set_zero_rows {F} (v : option (list nat)) : Py F unit :=
  modify (fun e => Engine (ell e) (k e) (M e) (N e) (mat_b e) v).

(* ================================================================== *)
(** ** The methods of [FrequentDirection] *)

Section Methods.
Context {F : Type} `{Scalar F} `{Linalg F}.

(** [__init__(self, ell, k=None)], lines 22-32.  The body has no
    [raise]; the arguments are integers, on which [int] is the
    identity. *)
Definition __init__ (ell0 : Z) (k0 : option Z) : Py F unit :=
  modify (fun _ =>
    Engine ell0
           (match k0 with None => 2 * ell0 + 1 | Some v => v end)
           None 0 None None).

(** The object before [__init__] has run on it; every attribute is
    overwritten by [__init__]. *)
Definition blank : engine F := Engine 0 0 None 0 None None.

(** [FrequentDirection(ell, k)]: the outcome of the constructor call
    and the object built. *)
Definition new (ell0 : Z) (k0 : option Z) : (exn + unit) * engine F :=
  __init__ ell0 k0 blank.

(** [is_initialized], lines 34-35. *)
Definition is_initialized (e : engine F) : bool :=
  match M e with Some _ => true | None => false end.

(** [initialize], lines 37-48.  [self.M] is assigned before the test
    on [ell]. *)
Definition initialize (row : list F) : Py F unit :=
  set_M (Some (length row)) ;;
  e <- get ;;
  if ell e >=? Z.of_nat (length row) then raise DimensionError
  else
    set_N 0 ;;
    b <- lift (np_zeros (ell e + k e) (length row)) ;;
    set_mat_b (Some b) ;;
    set_zero_rows (Some (py_range (ell e + k e))).

(** Lines 67-71: the row goes to the first free position, which leaves
    the list of free positions. *)
Definition insert_row (row : list F) : Py F unit :=
  e <- get ;;
  zr <- subscriptable (zero_rows e) ;;
  match zr with
  | [] => raise IndexError
  | i :: rest =>
      b <- subscriptable (mat_b e) ;;
      b' <- lift (assign_row b i row) ;;
      set_mat_b (Some b') ;;
      set_zero_rows (Some rest)
  end.

(** Line 83. *)
Definition shrink_value (d : F) : F :=
  if ltb d zero then zero else sqrt d.

(** Lines 76-89, the body of [if len(self.zero_rows) == 0].  [mat_u] is
    bound and not used. *)
Definition shrink : Py F unit :=
  e <- get ;;
  b <- subscriptable (mat_b e) ;;
  let '(mat_u, vec_sigma, mat_v) := svd b in
  match py_index vec_sigma (ell e) with
  | None => raise IndexError
  | Some s =>
      let squared_sv_center := mul s s in
      let sigma_tilda :=
        map shrink_value
            (map (fun x => sub (mul x x) squared_sv_center) vec_sigma) in
      let b' := dot (diagflat sigma_tilda) mat_v in
      set_mat_b (Some b') ;;
      set_zero_rows (Some (nonzero (map round7_is_zero (row_sums b'))))
  end.

(** [add_sample], lines 60-90.  The local [i = self.N] of line 65 is
    never read. *)
Definition add_sample (row : list F) : Py F unit :=
  e0 <- get ;;
  (if is_initialized e0 then ret tt else initialize row) ;;
  insert_row row ;;
  e1 <- get ;;
  zr <- subscriptable (zero_rows e1) ;;
  (if Nat.eqb (length zr) 0 then shrink else ret tt) ;;
  e2 <- get ;;
  set_N (N e2 + 1).

(** [get_result], lines 50-58.  The value is the slice taken before the
    optional re-initialisation. *)
Definition get_result (initialize : bool) : Py F (matrix F) :=
  e <- get ;;
  if ell e + k e >=? N e then raise ConfigurationError
  else
    b <- subscriptable (mat_b e) ;;
    let result := py_slice_to (ell e) b in
    (if initialize then __init__ (ell e) (Some (k e)) else ret tt) ;;
    ret result.

(** *** Sequences of calls *)

(** A caller feeding rows one by one, going on after an exception; the
    outcomes of the calls and the final state. *)
Fixpoint add_samples (rows : list (list F)) (e : engine F)
  : list (exn + unit) * engine F :=
  match rows with
  | [] => ([], e)
  | row :: rest =>
      let '(r, e') := add_sample row e in
      let '(rs, e'') := add_samples rest e' in
      (r :: rs, e'')
  end.

(** Does this call of [add_sample] reach line 74 with an empty list,
    that is, does it enter the shrink? *)
Definition enters_shrink (row : list F) (e : engine F) : bool :=
  match ((if is_initialized e then ret tt else initialize row) ;;
         insert_row row) e with
  | (inr _, e1) =>
      match zero_rows e1 with
      | Some [] => true
      | _ => false
      end
  | (inl _, _) => false
  end.

(** Number of calls of a sequence that enter the shrink. *)
Fixpoint shrink_count (rows : list (list F)) (e : engine F) : nat :=
  match rows with
  | [] => O
  | row :: rest =>
      ((if enters_shrink row e then 1 else 0)
       + shrink_count rest (snd (add_sample row e)))%nat
  end.

(** *** The metric helpers *)

(** [np.amax]. *)
Definition amax (v : list F) : F :=
  match v with
  | [] => zero
  | x :: v' => fold_left (fun m y => if ltb m y then y else m) v' x
  end.

(** [ln.norm(x, ord = 2)]: the largest singular value. *)
Definition norm2 (x : matrix F) : F :=
  let '(_, s, _) := svd x in amax s.

(** [ln.norm(x, ord = 'fro')]: the root of the dot product of the
    flattened matrix with itself. *)
Definition norm_fro (x : matrix F) : F :=
  sqrt (inner (concat x) (concat x)).

(** [calculateError], lines 93-102. *)
Definition calculateError (mat_a mat_b' : matrix F) : F :=
  let dot_mat_a := dot (transpose mat_a) mat_a in
  let dot_mat_b := dot (transpose mat_b') mat_b' in
  norm2 (msub dot_mat_a dot_mat_b).

(** [squaredFrobeniusNorm], lines 105-111. *)
Definition squaredFrobeniusNorm (mat_a : matrix F) : F :=
  let n := norm_fro mat_a in mul n n.
End Methods.

(* ================================================================== *)
(** ** What the proofs assume of the numbers *)

(** Facts of exact arithmetic used below.  On [float64] they hold up to
    the sign of zero as long as no operand is infinite or NaN; they fail
    when a square overflows ([inf - inf] and [0 * inf] are NaN, and NaN is
    unordered).  A statement that takes these laws says nothing of such a
    run; the runs on binary64 data at the end of the file show what the
    code does there. *)
Class ScalarLaws (F : Type) `{Scalar F} : Prop := {
  add_zero_zero : add zero zero = zero;
  mul_zero_l : forall x, mul zero x = zero;
  sub_diag : forall x, sub x x = zero;
  ltb_zero_zero : ltb zero zero = false;
  sqrt_zero : sqrt zero = zero;
  round7_zero : round7_is_zero zero = true;
  ltb_zero_asym : forall d, ltb d zero = true -> ltb zero d = false;
  ltb_zero_total : forall d, ltb d zero = false -> ltb zero d = false -> d = zero;
  square_mono : forall a b, le zero a -> le a b -> le (mul a a) (mul b b);
  sub_nonpos : forall a b, le a b -> ltb (sub a b) zero = true \/ sub a b = zero
}.

Arguments ScalarLaws F {_}.

(** The singular values returned for [b]. *)
Definition svd_sigma {F : Type} `{Linalg F} (b : matrix F) : list F :=
  snd (fst (svd b)).

(** The factor [V^T] returned for [b]. *)
Definition svd_vt {F : Type} `{Linalg F} (b : matrix F) : matrix F :=
  snd (svd b).

(** The documented result of [svd(b, full_matrices=False)] on an
    [n x m] matrix: [min n m] singular values, non-negative and in
    descending order, and a factor [V^T] of shape [min n m x m]. *)
Class SvdContract (F : Type) `{Scalar F} `{Linalg F} : Prop := {
  svd_sigma_length : forall n m b,
    has_shape n m b -> length (svd_sigma b) = Nat.min n m;
  svd_vt_shape : forall n m b,
    has_shape n m b -> has_shape (Nat.min n m) m (svd_vt b);
  svd_sigma_sorted : forall n m b,
    has_shape n m b -> StronglySorted (fun x y => le y x) (svd_sigma b);
  svd_sigma_nonneg : forall n m b,
    has_shape n m b -> Forall (le zero) (svd_sigma b)
}.

Arguments SvdContract F {_ _}.

(** Sums do not depend on the order of the terms.  Exact arithmetic
    again: [float64] addition rounds, so this holds there only up to
    rounding. *)
Class SumLaws (F : Type) `{Scalar F} : Prop := {
  add_right_comm : forall a x y, add (add a x) y = add (add a y) x
}.

Arguments SumLaws F {_}.

(* ================================================================== *)
(** ** Integer data: an instance that computes *)

(** Integers with the integer square root.  On integer inputs whose
    shrunk squares are perfect squares every operation below returns what
    real arithmetic returns. *)
Module IntegerData.

#[export] Instance Z_Scalar : Scalar Z := {
  zero := 0;
  add := Z.add;
  sub := Z.sub;
  mul := Z.mul;
  ltb := Z.ltb;
  sqrt := Z.sqrt;
  round7_is_zero := fun s => Z.eqb s 0
}.

(** A row that is a multiple of a coordinate vector: the absolute value
    of its entry, the coordinate, the position of the row in the matrix
    and the sign of the entry. *)
Record axis_row : Type := AxisRow {
  weight : Z;
  axis : nat;
  origin : nat;
  sign : Z
}.

Fixpoint first_nonzero (r : list Z) : nat :=
  match r with
  | [] => O
  | x :: r' => if Z.eqb x 0 then S (first_nonzero r') else O
  end.

Definition describe (ir : nat * list Z) : axis_row :=
  let r := snd ir in
  let x := nth (first_nonzero r) r 0 in
  AxisRow (fold_right (fun y acc => Z.abs y + acc) 0 r)
          (first_nonzero r) (fst ir)
          (if Z.ltb x 0 then -1 else 1).

Fixpoint insert_desc (x : axis_row) (l : list axis_row) : list axis_row :=
  match l with
  | [] => [x]
  | y :: t => if Z.leb (weight y) (weight x) then x :: l
              else y :: insert_desc x t
  end.

Definition sort_desc (l : list axis_row) : list axis_row :=
  fold_right insert_desc [] l.

(** [x] may stand before [y] in a descending list. *)
Definition heavier (x y : axis_row) : Prop := weight y <= weight x.

Definition unit_row (m c : nat) : list Z :=
  map (fun j => if Nat.eqb j c then 1 else 0) (seq 0 m).

(** The singular value decomposition of a matrix whose rows are
    multiples of distinct coordinate vectors (or zero): the singular
    values are the absolute values of the entries in descending order,
    [V^T] lists the coordinate vectors in that order, followed by the
    unused ones, and [U] is the signed permutation that puts the rows
    back. *)
Definition svd_axis (b : matrix Z) : matrix Z * list Z * matrix Z :=
  let n := length b in
  let m := ncols b in
  let K := Nat.min n m in
  let rows := sort_desc (map describe (combine (seq 0 n) b)) in
  let used := map axis (filter (fun r => negb (Z.eqb (weight r) 0)) rows) in
  let axes :=
    used ++ filter (fun c => negb (existsb (Nat.eqb c) used)) (seq 0 m) in
  let u := map (fun i => map (fun r => if Nat.eqb (origin r) i
                                       then sign r else 0)
                             (firstn K rows))
               (seq 0 n) in
  (u, map weight (firstn K rows), map (unit_row m) (firstn K axes)).

#[export] Instance Z_Linalg : Linalg Z := { svd := svd_axis }.

End IntegerData.

(* ================================================================== *)
(** ** Binary64 data: the numbers of the program *)

(** IEEE 754 binary64 with the kernel's primitive operations, which are
    those of Python's [float] and numpy's [float64].  [round(s, 7) == 0]
    on a [numpy.float64] multiplies by [10**7], rounds to the nearest
    integer (ties to even) and divides again: the result is zero exactly
    when the product is at most one half in absolute value. *)
Module Float64Data.
Import PrimFloat.

#[local] Set Warnings "-inexact-float".

#[export] Instance float_Scalar : Scalar float :=
  @Build_Scalar float 0%float PrimFloat.add PrimFloat.sub PrimFloat.mul
    PrimFloat.ltb PrimFloat.sqrt
    (fun s => PrimFloat.leb (PrimFloat.abs (PrimFloat.mul s 1e7%float))
                            0.5%float).

(** As in [IntegerData]: a row that is a multiple of a coordinate
    vector. *)
Record faxis_row : Type := FAxisRow {
  fweight : float;
  faxis : nat;
  forigin : nat;
  fsign : float
}.

Fixpoint ffirst_nonzero (r : list float) : nat :=
  match r with
  | [] => O
  | x :: r' => if PrimFloat.eqb x 0%float then S (ffirst_nonzero r') else O
  end.

Definition fdescribe (ir : nat * list float) : faxis_row :=
  let r := snd ir in
  let x := nth (ffirst_nonzero r) r 0%float in
  FAxisRow (fold_right (fun y acc => PrimFloat.add (PrimFloat.abs y) acc)
                       0%float r)
           (ffirst_nonzero r) (fst ir)
           (if PrimFloat.ltb x 0%float then (-1)%float else 1%float).

Fixpoint finsert_desc (x : faxis_row) (l : list faxis_row)
  : list faxis_row :=
  match l with
  | [] => [x]
  | y :: t => if PrimFloat.leb (fweight y) (fweight x) then x :: l
              else y :: finsert_desc x t
  end.

Definition fsort_desc (l : list faxis_row) : list faxis_row :=
  fold_right finsert_desc [] l.

Definition funit_row (m c : nat) : list float :=
  map (fun j => if Nat.eqb j c then 1%float else 0%float) (seq 0 m).

(** The singular value decomposition of a matrix whose rows are
    multiples of distinct coordinate vectors, as [svd_axis] on integers.
    No square is taken, so nothing overflows here. *)
Definition svd_faxis (b : matrix float)
  : matrix float * list float * matrix float :=
  let n := length b in
  let m := ncols b in
  let K := Nat.min n m in
  let rows := fsort_desc (map fdescribe (combine (seq 0 n) b)) in
  let used :=
    map faxis
        (filter (fun r => negb (PrimFloat.eqb (fweight r) 0%float)) rows) in
  let axes :=
    used ++ filter (fun c => negb (existsb (Nat.eqb c) used)) (seq 0 m) in
  let u := map (fun i => map (fun r => if Nat.eqb (forigin r) i
                                       then fsign r else 0%float)
                             (firstn K rows))
               (seq 0 n) in
  (u, map fweight (firstn K rows), map (funit_row m) (firstn K axes)).

#[export] Instance float_Linalg : Linalg float := { svd := svd_faxis }.

(** Some numbers. *)
Definition f0 : float := 0%float.
Definition f1 : float := 1%float.
Definition big : float := 1e200%float.
Definition not_a_number : float := PrimFloat.nan.

End Float64Data.

(* ================================================================== *)
(** ** Notions used to state the properties *)

Section Notions.
Context {F : Type} `{Scalar F} `{Linalg F}.

(** The engine built by [FrequentDirection(l, kk)]. *)
Definition fresh (l kk : Z) : engine F := Engine l kk None 0 None None.

(** The engine right after a successful [initialize] on a row of
    length [m]. *)
Definition allocated (l kk : Z) (m : nat) : engine F :=
  Engine l kk (Some m) 0
         (Some (repeat (repeat zero m) (Z.to_nat (l + kk))))
         (Some (seq 0 (Z.to_nat (l + kk)))).

(** Number of calls that returned normally. *)
Definition successes (outs : list (exn + unit)) : nat :=
  length (filter (fun r => match r with inr _ => true | inl _ => false end)
                 outs).

(** *** The shrink step in the words of the specification *)

(** [max(0, d)]. *)
Definition max0 (d : F) : F := if ltb zero d then d else zero.

(** [threshold = sigma[ell]^2], 0-based. *)
Definition threshold (sigma : list F) (l : nat) : F :=
  mul (nth l sigma zero) (nth l sigma zero).

(** [sigma~_i = sqrt(max(0, sigma_i^2 - threshold))]. *)
Definition shrunk_sigma (sigma : list F) (l : nat) : list F :=
  map (fun s => sqrt (max0 (sub (mul s s) (threshold sigma l)))) sigma.

(** [diag(sigma~) . V^T] for the decomposition of [b]. *)
Definition shrunk_buffer (b : matrix F) (l : nat) : matrix F :=
  dot (diagflat (shrunk_sigma (svd_sigma b) l)) (svd_vt b).

(** The buffer assigned by line 86, for the decomposition of [b] and
    the threshold read at position [l]. *)
Definition shrink_buffer (b : matrix F) (l : nat) : matrix F :=
  let s := nth l (svd_sigma b) zero in
  dot (diagflat
         (map shrink_value
              (map (fun x => sub (mul x x) (mul s s)) (svd_sigma b))))
      (svd_vt b).

(** The list assigned by line 89 for the buffer [b]. *)
Definition zero_sum_rows (b : matrix F) : list nat :=
  nonzero (map round7_is_zero (row_sums b)).


(** *** The spectral norm by its defining property *)

Definition mat_vec (d : matrix F) (x : list F) : list F :=
  map (fun r => inner r x) d.

(** [|d x| <= s |x|] for every vector [x], stated on squares. *)
Definition operator_bound (d : matrix F) (s : F) : Prop :=
  le zero s /\
  forall x, length x = ncols d ->
            le (inner (mat_vec d x) (mat_vec d x))
               (mul (mul s s) (inner x x)).

(** [s] is the least operator bound of [d]. *)
Definition is_spectral_norm (d : matrix F) (s : F) : Prop :=
  operator_bound d s /\ forall t, operator_bound d t -> le s t.


(** *** An invariant of [add_sample] *)

(** It holds of a new engine and is kept by every call, normal or not.
    Either nothing was added yet; or the first row was too short for
    [ell] (then [M] is set and nothing is allocated); or a buffer is in
    use and a free row is known.  The buffer has [ell+k] rows as long as
    the rows stored and the free rows add up to [ell+k], and
    [min (ell+k) M] rows once [N] has reached [ell+k]. *)
Inductive consistent (l kk : Z) : engine F -> Prop :=
| consistent_fresh : consistent l kk (fresh l kk)
| consistent_refused (m : nat) :
    l >= Z.of_nat m ->
    consistent l kk (Engine l kk (Some m) 0 None None)
| consistent_running (m n : nat) (cnt : Z) (b : matrix F) (zr : list nat) :
    l < Z.of_nat m ->
    (n = Z.to_nat (l + kk) /\ cnt + Z.of_nat (length zr) = l + kk)
    \/ (n = Nat.min (Z.to_nat (l + kk)) m /\ l + kk <= cnt) ->
    has_shape n m b ->
    zr <> [] ->
    Forall (fun i => (i < n)%nat) zr ->
    consistent l kk (Engine l kk (Some m) cnt (Some b) (Some zr)).

End Notions.

(** ** The inputs of the examples *)

Module Examples.
Import IntegerData.

(** Five rows of length 4 for an engine with [ell = 2], [k = 2]. *)
Definition rows5 : matrix Z :=
  [[20; 0; 0; 0]; [0; 15; 0; 0]; [0; 0; 12; 0]; [0; 0; 0; 4]; [0; 0; 76; 0]].

Definition engine22 : engine Z := snd (new 2 (Some 2)).



(** The engine after the five rows, the sketch it hands out, and the
    matrix whose spectral norm [calculateError] returns for it. *)
Definition after5 : engine Z := snd (add_samples rows5 engine22).

Definition sketch5 : matrix Z := [[16; 0; 0; 0]; [0; 9; 0; 0]].

Definition gram_gap : matrix Z :=
  msub (dot (transpose rows5) rows5) (dot (transpose sketch5) sketch5).

(** The engine after three of the five rows: one free row is left. *)
Definition after3 : engine Z := snd (add_samples (firstn 3 rows5) engine22).

(** [svd b] is a singular value decomposition of [b]: the factors
    multiply back to [b], the columns of [U] and the rows of [V^T] are
    orthonormal. *)
Definition is_decomposition (b : matrix Z) : Prop :=
  let '(u, s, vt) := svd b in
  dot (dot u (diagflat s)) vt = b /\
  dot (transpose u) u = diagflat (repeat 1 (length s)) /\
  dot vt (transpose vt) = diagflat (repeat 1 (length s)).
End Examples.

(** Rows whose squares overflow binary64. *)
Module FloatExamples.
Import Float64Data.



(** The buffer of [engine11] once the two large rows are in. *)
Definition overflow_buffer : matrix PrimFloat.float :=
  [[big; f0]; [f0; big]].

(** For an engine with [ell = 1], [k = 2]: three large rows on the three
    axes, then one more row. *)
Definition overflow_rows3 : matrix PrimFloat.float :=
  [[big; f0; f0]; [f0; big; f0]; [f0; f0; big]; [f1; f0; f0]].

Definition engine12 : engine PrimFloat.float := snd (new 1 (Some 2)).
End FloatExamples.

(* ================================================================== *)
(** * Properties *)

(** The closed examples below run on the integer instance. *)
Import IntegerData.

(** ** The constructor *)

Section Constructor.
Context {F : Type} `{Scalar F} `{Linalg F}.

Lemma new_fresh (l : Z) (k0 : option Z) :
  new l k0
  = (inr tt, fresh (F:=F) l (match k0 with None => 2 * l + 1 | Some v => v end)).
Proof. reflexivity. Qed.

Lemma new_default (l : Z) :
  new (F:=F) l None = new l (Some (2 * l + 1)).
Proof. reflexivity. Qed.

(** C5, as the code has it: [__init__] has no check on [ell]; the
    constructor returns normally for every integer [ell] and every [k],
    with [k = 2*ell+1] when absent and nothing allocated. *)
Theorem constructor_never_fails (l : Z) (k0 : option Z) :
  fst (new (F:=F) l k0) = inr tt /\
  ell (snd (new (F:=F) l k0)) = l /\
  k (snd (new (F:=F) l k0))
    = match k0 with None => 2 * l + 1 | Some v => v end /\
  is_initialized (snd (new (F:=F) l k0)) = false /\
  N (snd (new (F:=F) l k0)) = 0 /\
  mat_b (snd (new (F:=F) l k0)) = None /\
  zero_rows (snd (new (F:=F) l k0)) = None.
Proof. repeat split. Qed.
End Constructor.

(** C5 fails on the code: [FrequentDirection(0)] is built, with [k = 1],
    and no [ConfigurationError] is raised. *)
Lemma constructor_accepts_zero_ell :
  fst (new (F:=Z) 0 None) <> inl ConfigurationError /\
  new (F:=Z) 0 None = (inr tt, Engine 0 1 None 0 None None).
Proof. split; [discriminate | reflexivity]. Qed.

(** ** Calls that need no arithmetic *)

Section Calls.
Context {F : Type} `{Scalar F} `{Linalg F}.

Lemma allocated_shape (l kk : Z) (m : nat) :
  has_shape (Z.to_nat (l + kk)) m (repeat (repeat (zero (F:=F)) m) (Z.to_nat (l + kk))).
Proof.
  split.
  - apply repeat_length.
  - apply Forall_forall. intros r Hr.
    apply repeat_spec in Hr. subst r. apply repeat_length.
Qed.

Lemma initialize_refuses (e : engine F) (row : list F) :
  ell e >= Z.of_nat (length row) ->
  initialize row e
  = (inl DimensionError,
     Engine (ell e) (k e) (Some (length row)) (N e) (mat_b e) (zero_rows e)).
Proof.
  intros Hge. destruct e as [l kk m cnt b zr]. simpl in Hge.
  unfold initialize, bind, set_M, modify, get, raise. simpl.
  destruct (l >=? Z.of_nat (length row)) eqn:E; [reflexivity|].
  rewrite Z.geb_leb in E. apply Z.leb_gt in E. lia.
Qed.

Lemma initialize_allocates (e : engine F) (row : list F) :
  ell e < Z.of_nat (length row) ->
  0 <= ell e + k e ->
  initialize row e = (inr tt, allocated (ell e) (k e) (length row)).
Proof.
  intros Hlt Hnn. destruct e as [l kk m cnt b zr]. simpl in Hlt, Hnn.
  unfold initialize, bind, set_M, set_N, set_mat_b, set_zero_rows,
    modify, get, raise, lift, np_zeros, allocated, py_range. simpl.
  destruct (l >=? Z.of_nat (length row)) eqn:E.
  - rewrite Z.geb_leb in E. apply Z.leb_le in E. lia.
  - destruct (l + kk <? 0) eqn:E2; [apply Z.ltb_lt in E2; lia|].
    reflexivity.
Qed.

(** On an engine without [M], [add_sample] continues from the state
    [initialize] leaves. *)
Lemma add_sample_refused (e : engine F) (row : list F) :
  M e = None -> ell e >= Z.of_nat (length row) ->
  add_sample row e
  = (inl DimensionError,
     Engine (ell e) (k e) (Some (length row)) (N e) (mat_b e) (zero_rows e)).
Proof.
  intros HM Hge.
  unfold add_sample, bind, get, is_initialized.
  rewrite HM, (initialize_refuses e row Hge). reflexivity.
Qed.

Lemma add_sample_from_allocated (e : engine F) (row : list F) :
  M e = None -> ell e < Z.of_nat (length row) -> 0 <= ell e + k e ->
  add_sample row e = add_sample row (allocated (ell e) (k e) (length row)).
Proof.
  intros HM Hlt Hnn.
  unfold add_sample at 1. unfold bind at 1 2. unfold get at 1.
  unfold is_initialized at 1.
  rewrite HM, (initialize_allocates e row Hlt Hnn). reflexivity.
Qed.


(** C4: [get_result] raises the [ValueError] of line 52 exactly when
    [N <= ell+k]; with a buffer in place and [N = ell+k+1] it returns
    [mat_b[:ell]], the first [ell] rows for [ell >= 0]. *)
Theorem get_result_boundary (e : engine F) (init : bool) :
  (fst (get_result init e) = inl ConfigurationError <-> N e <= ell e + k e) /\
  (N e = ell e + k e -> get_result init e = (inl ConfigurationError, e)) /\
  (forall b, mat_b e = Some b -> N e = ell e + k e + 1 ->
     fst (get_result init e) = inr (py_slice_to (ell e) b) /\
     (0 <= ell e -> py_slice_to (ell e) b = firstn (Z.to_nat (ell e)) b)).
Proof.
  destruct e as [l kk m cnt b zr].
  unfold get_result, bind, get, subscriptable, ret, raise, __init__, modify.
  simpl. split; [|split].
  - destruct (l + kk >=? cnt) eqn:E; rewrite Z.geb_leb in E.
    + apply Z.leb_le in E. simpl. split; [intros _; exact E | reflexivity].
    + apply Z.leb_gt in E. split.
      * destruct b as [b|]; destruct init; simpl; discriminate.
      * intros Hle. lia.
  - intros Heq. destruct (l + kk >=? cnt) eqn:E; [reflexivity|].
    rewrite Z.geb_leb in E. apply Z.leb_gt in E. lia.
  - intros b0 Hb Heq. subst b.
    destruct (l + kk >=? cnt) eqn:E.
    + rewrite Z.geb_leb in E. apply Z.leb_le in E. lia.
    + split.
      * destruct init; reflexivity.
      * intros Hl. unfold py_slice_to.
        destruct (0 <=? l) eqn:E0; [reflexivity|].
        apply Z.leb_gt in E0. lia.
Qed.

(** C9: a [get_result(initialize=True)] that returns leaves exactly the
    engine [FrequentDirection(ell, k)] builds, so every later sequence of
    [add_sample] runs as on that new engine. *)
Theorem get_result_reset (e e' : engine F) (res : matrix F) :
  get_result true e = (inr res, e') ->
  e' = snd (new (ell e) (Some (k e))) /\
  ell e' = ell e /\ k e' = k e /\
  is_initialized e' = false /\
  M e' = None /\ N e' = 0 /\ mat_b e' = None /\ zero_rows e' = None /\
  forall rows,
    add_samples rows e' = add_samples rows (snd (new (ell e) (Some (k e)))).
Proof.
  destruct e as [l kk m cnt b zr].
  unfold get_result, bind, get, subscriptable, ret, raise, __init__, modify.
  simpl. destruct (l + kk >=? cnt); [discriminate|].
  destruct b as [b|]; simpl; [|discriminate].
  intros Heq. injection Heq as _ He'. subst e'.
  repeat split.
Qed.
End Calls.

(** ** One call of [add_sample], step by step *)

Section Steps.
Context {F : Type} `{Scalar F} `{Linalg F}.

(** The four stages of [add_sample] and where each can stop. *)
Lemma add_sample_stages (row : list F) (e : engine F) :
  add_sample row e
  = match (if is_initialized e then ret tt else initialize row) e with
    | (inl x, e1) => (inl x, e1)
    | (inr _, e1) =>
        match insert_row row e1 with
        | (inl x, e2) => (inl x, e2)
        | (inr _, e2) =>
            match zero_rows e2 with
            | None => (inl TypeError, e2)
            | Some zr =>
                match (if Nat.eqb (length zr) 0 then shrink else ret tt) e2
                with
                | (inl x, e3) => (inl x, e3)
                | (inr _, e3) =>
                    (inr tt,
                     Engine (ell e3) (k e3) (M e3) (N e3 + 1)
                            (mat_b e3) (zero_rows e3))
                end
            end
        end
    end.
Proof.
  unfold add_sample, bind at 1 2. unfold get at 1. cbv beta iota.
  destruct ((if is_initialized e then ret tt else initialize row) e)
    as [[x|[]] e1]; [reflexivity|].
  unfold bind at 1. destruct (insert_row row e1) as [[x|[]] e2];
    [reflexivity|].
  unfold bind at 1 2. unfold get at 1. cbv beta iota.
  destruct (zero_rows e2) as [zr|]; simpl; [|reflexivity].
  unfold bind at 1.
  destruct ((if Nat.eqb (length zr) 0 then shrink else ret tt) e2)
    as [[x|[]] e3]; reflexivity.
Qed.

(** What each stage leaves untouched. *)
Lemma initialize_frame (row : list F) (e : engine F) :
  let r := initialize row e in
  ell (snd r) = ell e /\ k (snd r) = k e /\
  M (snd r) = Some (length row) /\
  (N (snd r) = N e \/ N (snd r) = 0).
Proof.
  destruct e as [l kk m cnt b zr].
  unfold initialize, bind, set_M, set_N, set_mat_b, set_zero_rows,
    modify, get, raise, lift, np_zeros. simpl.
  destruct (l >=? Z.of_nat (length row)); simpl; [auto|].
  destruct (l + kk <? 0); simpl; auto.
Qed.

Lemma insert_row_frame (row : list F) (e : engine F) :
  let r := insert_row row e in
  ell (snd r) = ell e /\ k (snd r) = k e /\
  M (snd r) = M e /\ N (snd r) = N e.
Proof.
  destruct e as [l kk m cnt b zr].
  unfold insert_row, bind, get, subscriptable, ret, raise, lift,
    set_mat_b, set_zero_rows, modify. simpl.
  destruct zr as [[|i rest]|]; simpl; auto.
  destruct b as [b|]; simpl; auto.
  destruct (assign_row b i row); simpl; auto.
Qed.

Lemma shrink_frame (e : engine F) :
  let r := shrink e in
  ell (snd r) = ell e /\ k (snd r) = k e /\
  M (snd r) = M e /\ N (snd r) = N e.
Proof.
  destruct e as [l kk m cnt b zr].
  unfold shrink, bind, get, subscriptable, ret, raise,
    set_mat_b, set_zero_rows, modify. simpl.
  destruct b as [b|]; simpl; auto.
  destruct (svd b) as [[u s] vt].
  destruct (py_index s l); simpl; auto.
Qed.

Lemma first_stage_frame (row : list F) (e : engine F) :
  let r := (if is_initialized e then ret tt else initialize row) e in
  ell (snd r) = ell e /\ k (snd r) = k e /\
  M (snd r) <> None /\
  (M e <> None -> M (snd r) = M e) /\
  ((M e = None -> N e = 0) -> N (snd r) = N e).
Proof.
  unfold is_initialized. destruct (M e) as [m|] eqn:EM; cbv zeta.
  - simpl. rewrite EM. repeat split; auto; discriminate.
  - pose proof (initialize_frame row e) as (A & B & C & D).
    cbv zeta in A, B, C, D.
    repeat split; auto; try congruence.
    intros HI. destruct D as [D|D]; [exact D|].
    rewrite D. symmetry. auto.
Qed.

Lemma last_stage_frame (zr : list nat) (e : engine F) :
  let r := (if Nat.eqb (length zr) 0 then shrink else ret tt) e in
  ell (snd r) = ell e /\ k (snd r) = k e /\
  M (snd r) = M e /\ N (snd r) = N e.
Proof.
  destruct (Nat.eqb (length zr) 0); cbv zeta.
  - apply shrink_frame.
  - simpl. auto.
Qed.

(** [ell] and [k] never change, [M] is set after any call and never
    changes once set, and the counter moves by one on a normal return
    and not at all on an exception, provided it is 0 as long as [M] is
    not set. *)
Lemma add_sample_frame (row : list F) (e : engine F) :
  let r := add_sample row e in
  ell (snd r) = ell e /\ k (snd r) = k e /\
  M (snd r) <> None /\
  (M e <> None -> M (snd r) = M e) /\
  ((M e = None -> N e = 0) ->
     N (snd r) = match fst r with inr _ => N e + 1 | inl _ => N e end).
Proof.
  cbv zeta. rewrite add_sample_stages.
  pose proof (first_stage_frame row e) as H1. cbv zeta in H1.
  destruct ((if is_initialized e then ret tt else initialize row) e)
    as [[x|[]] e1]; simpl in H1; destruct H1 as (A1 & B1 & C1 & D1 & E1).
  { simpl. repeat split; auto. }
  pose proof (insert_row_frame row e1) as H2. cbv zeta in H2.
  destruct (insert_row row e1) as [[x|[]] e2]; simpl in H2;
    destruct H2 as (A2 & B2 & C2 & D2).
  { simpl. repeat split; try congruence; intros HI;
      try specialize (D1 HI); try specialize (E1 HI); congruence. }
  destruct (zero_rows e2) as [zr|].
  2:{ simpl. repeat split; try congruence; intros HI;
        try specialize (D1 HI); try specialize (E1 HI); congruence. }
  pose proof (last_stage_frame zr e2) as H3. cbv zeta in H3.
  destruct ((if Nat.eqb (length zr) 0 then shrink else ret tt) e2)
    as [[x|[]] e3]; simpl in H3; destruct H3 as (A3 & B3 & C3 & D3);
    simpl; repeat split; try congruence; intros HI;
    try specialize (D1 HI); try specialize (E1 HI); congruence.
Qed.

Lemma add_samples_app (rows1 rows2 : list (list F)) (e : engine F) :
  add_samples (rows1 ++ rows2) e
  = (fst (add_samples rows1 e)
       ++ fst (add_samples rows2 (snd (add_samples rows1 e))),
     snd (add_samples rows2 (snd (add_samples rows1 e)))).
Proof.
  revert e. induction rows1 as [|row rows1 IH]; intros e; simpl.
  - destruct (add_samples rows2 e); reflexivity.
  - destruct (add_sample row e) as [r e1]. rewrite IH.
    destruct (add_samples rows1 e1) as [rs e2]. simpl.
    reflexivity.
Qed.

Lemma add_samples_counter (rows : list (list F)) (e : engine F) :
  (M e = None -> N e = 0) ->
  N (snd (add_samples rows e))
  = N e + Z.of_nat (successes (fst (add_samples rows e))).
Proof.
  revert e. induction rows as [|row rows IH]; intros e HI; simpl.
  - unfold successes. simpl. lia.
  - pose proof (add_sample_frame row e) as (_ & _ & HM & _ & HN).
    cbv zeta in HM, HN. specialize (HN HI).
    destruct (add_sample row e) as [r e1]. simpl in HM, HN.
    specialize (IH e1 (fun Hc => False_ind _ (HM Hc))).
    destruct (add_samples rows e1) as [rs e2]. simpl in IH |- *.
    rewrite IH, HN. unfold successes. simpl.
    destruct r as [x|u]; simpl; lia.
Qed.

Lemma add_samples_counter_zero (rows : list (list F)) (e : engine F) :
  (M e = None -> N e = 0) ->
  M (snd (add_samples rows e)) = None -> N (snd (add_samples rows e)) = 0.
Proof.
  revert e. induction rows as [|row rows IH]; intros e HI; simpl.
  - exact HI.
  - pose proof (add_sample_frame row e) as (_ & _ & HM & _).
    cbv zeta in HM.
    destruct (add_sample row e) as [r e1]. simpl in HM.
    specialize (IH e1 (fun Hc => False_ind _ (HM Hc))).
    destruct (add_samples rows e1) as [rs e2]. exact IH.
Qed.

End Steps.

(** ** Rows of the wrong length *)

Section RowLength.
Context {F : Type} `{Scalar F} `{Linalg F}.

Lemma insert_row_running (row : list F) (e : engine F)
      (b : matrix F) (i : nat) (rest : list nat) :
  mat_b e = Some b ->
  zero_rows e = Some (i :: rest) ->
  insert_row row e
  = match assign_row b i row with
    | inl x => (inl x, e)
    | inr b' =>
        (inr tt, Engine (ell e) (k e) (M e) (N e) (Some b') (Some rest))
    end.
Proof.
  destruct e as [l kk m cnt b0 zr]. simpl. intros -> ->.
  unfold insert_row, bind, get, subscriptable, ret, raise, lift,
    set_mat_b, set_zero_rows, modify. simpl.
  destruct (assign_row b i row); reflexivity.
Qed.

Lemma shape_nth_error (n m : nat) (b : matrix F) (i : nat) :
  has_shape n m b -> (i < n)%nat ->
  exists old, nth_error b i = Some old /\ length old = m.
Proof.
  intros [Hn Hm] Hi.
  destruct (nth_error b i) as [old|] eqn:E.
  - exists old. split; [reflexivity|].
    rewrite Forall_forall in Hm. apply Hm. eapply nth_error_In; eauto.
  - apply nth_error_None in E. lia.
Qed.

Lemma assign_row_same_width (n m : nat) (b : matrix F) (i : nat)
      (row : list F) :
  has_shape n m b -> (i < n)%nat -> length row = m ->
  assign_row b i row = inr (set_nth i row b).
Proof.
  intros Hs Hi Hr. destruct (shape_nth_error Hs Hi) as (old & Ho & Hl).
  unfold assign_row. rewrite Ho, Hr, Hl, Nat.eqb_refl. reflexivity.
Qed.

(** On a buffer row of width [m], a row of another length is stored
    only if it has length one. *)
Lemma insert_row_mismatch
    (e : engine F) (row : list F) (m n : nat) (b : matrix F)
    (i : nat) (rest : list nat) :
  mat_b e = Some b -> zero_rows e = Some (i :: rest) ->
  has_shape n m b -> (i < n)%nat ->
  length row <> m ->
  insert_row row e
  = match row with
    | [x] => (inr tt,
              Engine (ell e) (k e) (M e) (N e)
                     (Some (set_nth i (repeat x m) b)) (Some rest))
    | _ => (inl BroadcastError, e)
    end.
Proof.
  intros Hb Hz Hs Hi Hlen.
  destruct (shape_nth_error Hs Hi) as (old & Ho & Hl).
  assert (Hne : Nat.eqb (length row) (length old) = false)
    by (apply Nat.eqb_neq; congruence).
  rewrite (insert_row_running row e Hb Hz).
  unfold assign_row. rewrite Ho, Hne, Hl.
  destruct row as [|x [|y row']]; reflexivity.
Qed.

(** Once [M] is set, the row matters to [add_sample] through
    [insert_row] only. *)
Lemma add_sample_by_insert (e : engine F) (row row' : list F) :
  M e <> None -> insert_row row e = insert_row row' e ->
  add_sample row e = add_sample row' e.
Proof.
  intros HM Heq. rewrite !add_sample_stages. unfold is_initialized.
  destruct (M e); [|congruence]. cbn [ret]. rewrite Heq. reflexivity.
Qed.

Lemma add_sample_unbroadcast
    (e : engine F) (row : list F) (m n : nat) (b : matrix F)
    (i : nat) (rest : list nat) :
  M e = Some m -> mat_b e = Some b -> zero_rows e = Some (i :: rest) ->
  has_shape n m b -> (i < n)%nat ->
  length row <> m -> length row <> 1%nat ->
  add_sample row e = (inl BroadcastError, e).
Proof.
  intros HM Hb Hz Hs Hi Hlen Hone.
  rewrite add_sample_stages. unfold is_initialized. rewrite HM. cbn [ret].
  rewrite (insert_row_mismatch e row Hb Hz Hs Hi Hlen).
  destruct row as [|x [|y row']]; try reflexivity.
  exfalso. apply Hone. reflexivity.
Qed.

Lemma add_sample_broadcast
    (e : engine F) (x : F) (m n : nat) (b : matrix F)
    (i : nat) (rest : list nat) :
  M e = Some m -> mat_b e = Some b -> zero_rows e = Some (i :: rest) ->
  has_shape n m b -> (i < n)%nat ->
  length [x] <> m ->
  add_sample [x] e = add_sample (repeat x m) e.
Proof.
  intros HM Hb Hz Hs Hi Hlen.
  apply add_sample_by_insert; [congruence|].
  rewrite (insert_row_mismatch e [x] Hb Hz Hs Hi Hlen).
  rewrite (insert_row_running (repeat x m) e Hb Hz).
  rewrite (assign_row_same_width (repeat x m) Hs Hi (repeat_length x m)).
  reflexivity.
Qed.

(** C6, as the code has it: [add_sample] has no test on the length of
    a later row.  A row whose length is neither [M] nor 1 makes the row
    assignment of line 68 raise, before anything is written; a row of
    length 1 is broadcast and added like the row repeating its value. *)
Theorem mismatched_row_outcome
    (e : engine F) (row : list F) (m n : nat) (b : matrix F)
    (i : nat) (rest : list nat) :
  M e = Some m -> mat_b e = Some b -> zero_rows e = Some (i :: rest) ->
  has_shape n m b -> (i < n)%nat ->
  length row <> m ->
  (length row <> 1%nat -> add_sample row e = (inl BroadcastError, e)) /\
  (forall x, row = [x] ->
     insert_row row e
     = (inr tt,
        Engine (ell e) (k e) (Some m) (N e)
               (Some (set_nth i (repeat x m) b)) (Some rest)) /\
     add_sample row e = add_sample (repeat x m) e).
Proof.
  intros HM Hb Hz Hs Hi Hlen. split.
  - intros Hone.
    exact (add_sample_unbroadcast e row HM Hb Hz Hs Hi Hlen Hone).
  - intros x ->. split.
    + rewrite (insert_row_mismatch e [x] Hb Hz Hs Hi Hlen), HM.
      reflexivity.
    + exact (add_sample_broadcast e HM Hb Hz Hs Hi Hlen).
Qed.
End RowLength.

(** C6 fails on the code: on an engine with [M = 2] a later row of
    length 1 is accepted; the call returns normally, the row [[7]] fills a
    whole buffer row and [N] moves on. *)
Lemma short_row_is_broadcast :
  let e := snd (add_sample [5; 0] (snd (new (F:=Z) 1 (Some 2)))) in
  M e = Some 2%nat /\
  length [7] <> 2%nat /\
  fst (add_sample [7] e) <> inl DimensionError /\
  add_sample [7] e
  = (inr tt,
     Engine 1 2 (Some 2%nat) 2 (Some [[5; 0]; [7; 7]; [0; 0]]) (Some [2%nat])).
Proof.
  cbv zeta. repeat split; try discriminate.
Qed.

(** ** Lists and matrices *)

Section ListFacts.

Lemma nonzero_from_In (s j : nat) (flags : list bool) :
  In j (nonzero_from s flags)
  <-> (s <= j)%nat /\ nth_error flags (j - s) = Some true.
Proof.
  revert s. induction flags as [|f fs IH]; intros s; simpl.
  - split; [contradiction|]. intros [_ Hn].
    destruct (j - s)%nat; discriminate.
  - assert (Hstep : forall t, (S s <= j)%nat ->
              nth_error (t :: fs) (j - s) = nth_error fs (j - S s)).
    { intros t Hle. replace (j - s)%nat with (S (j - S s)) by lia.
      reflexivity. }
    destruct f; simpl; rewrite IH; split.
    + intros [<-|[Hle Hn]].
      * split; [lia|]. rewrite Nat.sub_diag. reflexivity.
      * split; [lia|]. rewrite Hstep; assumption.
    + intros [Hle Hn]. destruct (Nat.eq_dec s j) as [E|E]; [left; exact E|].
      right. split; [lia|]. rewrite <- (Hstep true); [assumption|lia].
    + intros [Hle Hn]. split; [lia|]. rewrite Hstep; assumption.
    + intros [Hle Hn]. destruct (Nat.eq_dec s j) as [E|E].
      * subst j. rewrite Nat.sub_diag in Hn. discriminate.
      * split; [lia|]. rewrite <- (Hstep false); [assumption|lia].
Qed.

Lemma nonzero_In (j : nat) (flags : list bool) :
  In j (nonzero flags) <-> nth_error flags j = Some true.
Proof.
  unfold nonzero. rewrite nonzero_from_In, Nat.sub_0_r.
  split; [intros [_ Hn]; exact Hn | intros Hn; split; [lia | exact Hn]].
Qed.


Lemma nonzero_bound (flags : list bool) :
  Forall (fun i => (i < length flags)%nat) (nonzero flags).
Proof.
  apply Forall_forall. intros j Hj. apply nonzero_In in Hj.
  apply nth_error_Some. congruence.
Qed.


Lemma sorted_nth {A : Type} (R : A -> A -> Prop) (d : A) (l : list A) :
  StronglySorted R l ->
  forall i j, (i < j)%nat -> (j < length l)%nat ->
              R (nth i l d) (nth j l d).
Proof.
  induction 1 as [|a l Hs IH Hall]; intros i j Hij Hj; simpl in Hj.
  - lia.
  - destruct j as [|j]; [lia|]. destruct i as [|i]; simpl.
    + rewrite Forall_forall in Hall. apply Hall. apply nth_In. lia.
    + apply IH; lia.
Qed.

Lemma firstn_subset {A : Type} (x : A) (n : nat) (l : list A) :
  In x (firstn n l) -> In x l.
Proof.
  revert n. induction l as [|h t IH]; intros [|n]; simpl; try tauto.
  intros [->|Hin]; [left; reflexivity | right; eapply IH; eauto].
Qed.

Lemma set_nth_length {A : Type} (i : nat) (x : A) (l : list A) :
  length (set_nth i x l) = length l.
Proof.
  revert i. induction l as [|h t IH]; intros [|i]; simpl; auto.
Qed.

Lemma set_nth_Forall {A : Type} (P : A -> Prop) (i : nat) (x : A)
      (l : list A) :
  P x -> Forall P l -> Forall P (set_nth i x l).
Proof.
  intros Hx. revert i. induction l as [|h t IH]; intros i Hl; simpl.
  - destruct i; constructor.
  - inversion Hl; subst. destruct i; constructor; auto.
Qed.
End ListFacts.

Section MatrixFacts.
Context {F : Type} `{Scalar F}.

Lemma set_nth_shape (n m i : nat) (row : list F) (b : matrix F) :
  has_shape n m b -> length row = m -> has_shape n m (set_nth i row b).
Proof.
  intros [Hn Hm] Hr. split.
  - rewrite set_nth_length. exact Hn.
  - apply set_nth_Forall; assumption.
Qed.

Lemma dot_shape (a b : matrix F) :
  has_shape (length a) (ncols b) (dot a b).
Proof.
  unfold dot. split.
  - apply length_map.
  - apply Forall_forall. intros r Hr. apply in_map_iff in Hr.
    destruct Hr as (r0 & <- & _). rewrite length_map, length_seq.
    reflexivity.
Qed.

Lemma diagflat_length (d : list F) : length (diagflat d) = length d.
Proof. unfold diagflat. rewrite length_map, length_seq. reflexivity. Qed.

Lemma shape_ncols (n m : nat) (b : matrix F) :
  has_shape n m b -> (0 < n)%nat -> ncols b = m.
Proof.
  intros [Hn Hm] Hpos. unfold ncols. destruct b as [|r b]; simpl in *.
  - lia.
  - inversion Hm; assumption.
Qed.
End MatrixFacts.

(** ** The shrink *)

Section Shrink.
Context {F : Type} `{ScalarLaws F} `{Linalg F}.

Lemma vsum_zeros (v : list F) : Forall (eq zero) v -> vsum v = zero.
Proof.
  unfold vsum. induction 1 as [|x v <- _ IH]; simpl.
  - reflexivity.
  - rewrite add_zero_zero. exact IH.
Qed.

Lemma zip_mul_zeros (u v : list F) :
  Forall (eq zero) u -> Forall (eq zero) (zip_mul u v).
Proof.
  intros Hu. revert v. induction Hu as [|x u <- _ IH]; intros v; simpl.
  - constructor.
  - destruct v as [|y v]; constructor.
    + symmetry. apply mul_zero_l.
    + apply IH.
Qed.

Lemma inner_zeros (u v : list F) : Forall (eq zero) u -> inner u v = zero.
Proof. intros Hu. apply vsum_zeros, zip_mul_zeros, Hu. Qed.

(** A zero on the diagonal gives a zero row of the product. *)
Lemma dot_diagflat_zero_row (d : list F) (vt : matrix F) (i : nat) :
  (i < length d)%nat -> nth i d zero = zero ->
  exists r, nth_error (dot (diagflat d) vt) i = Some r
            /\ Forall (eq zero) r.
Proof.
  intros Hi Hz. unfold dot, diagflat.
  rewrite !nth_error_map.
  rewrite (nth_error_nth' _ 0%nat) by (rewrite length_seq; exact Hi).
  rewrite seq_nth by exact Hi. simpl.
  eexists. split; [reflexivity|].
  apply Forall_forall. intros x Hx. apply in_map_iff in Hx.
  destruct Hx as (c & <- & _). symmetry. apply inner_zeros.
  apply Forall_forall. intros y Hy. apply in_map_iff in Hy.
  destruct Hy as (j & <- & _). rewrite Hz. destruct (Nat.eqb i j); reflexivity.
Qed.

Lemma zero_row_is_listed (b : matrix F) (i : nat) (r : list F) :
  nth_error b i = Some r -> Forall (eq zero) r -> In i (zero_sum_rows b).
Proof.
  intros Hr Hz. unfold zero_sum_rows, row_sums.
  apply nonzero_In. rewrite !nth_error_map, Hr. simpl.
  rewrite (vsum_zeros Hz), round7_zero. reflexivity.
Qed.


Lemma zero_sum_rows_bound (b : matrix F) :
  Forall (fun i => (i < length b)%nat) (zero_sum_rows b).
Proof.
  unfold zero_sum_rows, row_sums.
  pose proof (nonzero_bound (map round7_is_zero (map vsum b))) as Hb.
  rewrite !length_map in Hb. exact Hb.
Qed.

(** Line 83 against the formula of the specification. *)
Lemma shrink_value_max0 (d : F) : shrink_value d = sqrt (max0 d).
Proof.
  unfold shrink_value, max0. destruct (ltb d zero) eqn:E1.
  - rewrite (ltb_zero_asym _ E1). symmetry. apply sqrt_zero.
  - destruct (ltb zero d) eqn:E2; [reflexivity|].
    rewrite (ltb_zero_total _ E1 E2). reflexivity.
Qed.

Lemma shrink_value_nonpos (d : F) :
  ltb d zero = true \/ d = zero -> shrink_value d = zero.
Proof.
  unfold shrink_value. intros [E| ->].
  - rewrite E. reflexivity.
  - rewrite ltb_zero_zero. apply sqrt_zero.
Qed.

Lemma shrink_buffer_spec (b : matrix F) (l : nat) :
  shrink_buffer b l = shrunk_buffer b l.
Proof.
  unfold shrink_buffer, shrunk_buffer, shrunk_sigma, threshold.
  rewrite map_map. f_equal. f_equal.
  apply map_ext. intros s. apply shrink_value_max0.
Qed.

Lemma py_index_nat {A : Type} (d : A) (v : list A) (l : Z) :
  0 <= l -> (Z.to_nat l < length v)%nat ->
  py_index v l = Some (nth (Z.to_nat l) v d).
Proof.
  intros Hl Hlt. unfold py_index.
  assert (E1 : (0 <=? l) = true) by (apply Z.leb_le; lia).
  assert (E2 : (l <? Z.of_nat (length v)) = true) by (apply Z.ltb_lt; lia).
  rewrite E1, E2. simpl. apply nth_error_nth'. exact Hlt.
Qed.

(** The shrink as one step, when position [ell] exists in the vector
    of singular values. *)
Lemma shrink_step (e : engine F) (b : matrix F) :
  mat_b e = Some b ->
  0 <= ell e -> (Z.to_nat (ell e) < length (svd_sigma b))%nat ->
  shrink e
  = (inr tt,
     Engine (ell e) (k e) (M e) (N e)
            (Some (shrink_buffer b (Z.to_nat (ell e))))
            (Some (zero_sum_rows (shrink_buffer b (Z.to_nat (ell e)))))).
Proof.
  destruct e as [l kk m cnt b0 zr]. simpl. intros -> Hl Hlt.
  unfold shrink, bind, get, subscriptable, ret, raise,
    set_mat_b, set_zero_rows, modify. simpl.
  unfold shrink_buffer, zero_sum_rows, svd_sigma, svd_vt in *.
  destruct (svd b) as [[u s] vt]. simpl in *.
  rewrite (py_index_nat zero s Hl Hlt). reflexivity.
Qed.

Context {contract : SvdContract F}.

Lemma shrink_buffer_shape (n m : nat) (b : matrix F) (l : nat) :
  has_shape n m b -> (0 < Nat.min n m)%nat ->
  has_shape (Nat.min n m) m (shrink_buffer b l).
Proof.
  intros Hs Hpos. unfold shrink_buffer.
  pose proof (svd_sigma_length Hs) as Hlen.
  pose proof (svd_vt_shape Hs) as Hvt.
  pose proof (shape_ncols Hvt Hpos) as Hc.
  match goal with |- has_shape _ _ (dot ?a ?v) =>
    pose proof (dot_shape a v) as Hd end.
  rewrite diagflat_length, !length_map, Hlen, Hc in Hd. exact Hd.
Qed.

(** Every position from [ell] on carries a zero row after the shrink:
    its squared singular value does not exceed the threshold. *)
Lemma shrink_frees_tail (n m : nat) (b : matrix F) (l j : nat) :
  has_shape n m b -> (l <= j)%nat -> (j < Nat.min n m)%nat ->
  In j (zero_sum_rows (shrink_buffer b l)).
Proof.
  intros Hs Hlj Hj.
  pose proof (svd_sigma_length Hs) as Hlen.
  pose proof (svd_sigma_sorted Hs) as Hsorted.
  pose proof (svd_sigma_nonneg Hs) as Hnn.
  set (sg := svd_sigma b) in *.
  set (c := mul (nth l sg zero) (nth l sg zero)).
  assert (Hz : nth j (map shrink_value
                        (map (fun x => sub (mul x x) c) sg)) zero = zero).
  { rewrite map_map.
    rewrite (nth_indep _ zero
               (shrink_value (sub (mul zero zero) c)))
      by (rewrite length_map; lia).
    rewrite (map_nth (fun x => shrink_value (sub (mul x x) c))).
    apply shrink_value_nonpos. unfold c.
    destruct (Nat.eq_dec l j) as [->|Hne].
    - right. apply sub_diag.
    - apply sub_nonpos. apply square_mono.
      + rewrite Forall_forall in Hnn. apply Hnn. apply nth_In. lia.
      + apply (sorted_nth zero Hsorted); lia. }
  destruct (@dot_diagflat_zero_row
              (map shrink_value (map (fun x => sub (mul x x) c) sg))
              (svd_vt b) j) as (r & Hr & Hzr).
  - rewrite !length_map. lia.
  - exact Hz.
  - eapply zero_row_is_listed; eauto.
Qed.
End Shrink.

(** ** One call on an engine with a buffer *)

Section RunningSteps.
Context {F : Type} `{ScalarLaws F} `{Linalg F}.
Context {contract : SvdContract F}.

(** A call that leaves a free row: no shrink. *)
Lemma add_sample_fills (e : engine F) (row : list F) (m n : nat)
      (b : matrix F) (i : nat) (rest : list nat) :
  M e = Some m -> mat_b e = Some b -> zero_rows e = Some (i :: rest) ->
  has_shape n m b -> (i < n)%nat -> length row = m -> rest <> [] ->
  add_sample row e
  = (inr tt,
     Engine (ell e) (k e) (Some m) (N e + 1)
            (Some (set_nth i row b)) (Some rest))
  /\ enters_shrink row e = false.
Proof.
  intros HM Hb Hz Hs Hi Hr Hrest.
  pose proof (assign_row_same_width row Hs Hi Hr) as Ha.
  pose proof (insert_row_running row e Hb Hz) as Hins.
  rewrite Ha in Hins. split.
  - rewrite add_sample_stages. unfold is_initialized. rewrite HM.
    cbn [ret]. rewrite Hins. cbn [zero_rows].
    destruct rest as [|i' rest']; [congruence|].
    cbn [length Nat.eqb ret]. rewrite HM. reflexivity.
  - unfold enters_shrink, bind, is_initialized. rewrite HM.
    cbn [ret]. rewrite Hins. cbn [zero_rows].
    destruct rest; [congruence | reflexivity].
Qed.

(** A call that takes the last free row: the shrink runs on the full
    buffer. *)
Lemma add_sample_shrinks (e : engine F) (row : list F) (m n : nat)
      (b : matrix F) (i : nat) :
  M e = Some m -> mat_b e = Some b -> zero_rows e = Some [i] ->
  has_shape n m b -> (i < n)%nat -> length row = m ->
  0 <= ell e -> (Z.to_nat (ell e) < Nat.min n m)%nat ->
  add_sample row e
  = (inr tt,
     Engine (ell e) (k e) (Some m) (N e + 1)
            (Some (shrink_buffer (set_nth i row b) (Z.to_nat (ell e))))
            (Some (zero_sum_rows
                     (shrink_buffer (set_nth i row b)
                                    (Z.to_nat (ell e))))))
  /\ enters_shrink row e = true.
Proof.
  intros HM Hb Hz Hs Hi Hr Hl Hlt.
  pose proof (assign_row_same_width row Hs Hi Hr) as Ha.
  pose proof (insert_row_running row e Hb Hz) as Hins.
  rewrite Ha in Hins. split.
  - rewrite add_sample_stages. unfold is_initialized. rewrite HM.
    cbn [ret]. rewrite Hins. cbn [zero_rows length Nat.eqb].
    pose proof (set_nth_shape i row Hs Hr) as Hfull.
    rewrite (shrink_step
               (Engine (ell e) (k e) (M e) (N e)
                       (Some (set_nth i row b)) (Some []))
               eq_refl Hl)
      by (cbn [ell]; rewrite (svd_sigma_length Hfull); exact Hlt).
    cbn [ell k M N]. rewrite HM. reflexivity.
  - unfold enters_shrink, bind, is_initialized. rewrite HM.
    cbn [ret]. rewrite Hins. reflexivity.
Qed.

(** A row of the right length is always accepted by an engine that
    satisfies the invariant with a buffer, and the invariant is kept. *)
Lemma add_sample_on_buffer (l kk : Z) (row : list F) (m n : nat) (cnt : Z)
      (b : matrix F) (zr : list nat) :
  0 <= l -> 0 < kk -> l < Z.of_nat m ->
  (n = Z.to_nat (l + kk) /\ cnt + Z.of_nat (length zr) = l + kk)
  \/ (n = Nat.min (Z.to_nat (l + kk)) m /\ l + kk <= cnt) ->
  has_shape n m b -> zr <> [] -> Forall (fun i => (i < n)%nat) zr ->
  length row = m ->
  fst (add_sample row (Engine l kk (Some m) cnt (Some b) (Some zr)))
  = inr tt /\
  consistent l kk
    (snd (add_sample row (Engine l kk (Some m) cnt (Some b) (Some zr)))).
Proof.
  intros Hl Hk Hlm Hn Hs Hzr Hall Hr.
  destruct zr as [|i rest]; [congruence|].
  inversion Hall as [|? ? Hi Hrest]; subst.
  destruct rest as [|i' rest'].
  - assert (Hlt : (Z.to_nat l < Nat.min n (length row))%nat) by lia.
    destruct (add_sample_shrinks
                (Engine l kk (Some (length row)) cnt (Some b) (Some [i]))
                row eq_refl eq_refl eq_refl Hs Hi eq_refl Hl Hlt)
      as [-> _].
    split; [reflexivity|]. cbn [snd ell k N].
    pose proof (set_nth_shape i row Hs (eq_refl (length row))) as Hfull.
    assert (Hpos : (0 < Nat.min n (length row))%nat) by lia.
    pose proof (shrink_buffer_shape (Z.to_nat l) Hfull Hpos) as Hshape.
    apply consistent_running with (n := Nat.min n (length row)).
    + exact Hlm.
    + right. cbn [length] in Hn. lia.
    + exact Hshape.
    + intros Hnil.
      pose proof (shrink_frees_tail Hfull (Nat.le_refl (Z.to_nat l)) Hlt)
        as Hin.
      rewrite Hnil in Hin. exact Hin.
    + pose proof (zero_sum_rows_bound
                    (shrink_buffer (set_nth i row b) (Z.to_nat l))) as Hb.
      destruct Hshape as [Hlen _]. rewrite Hlen in Hb. exact Hb.
  - destruct (add_sample_fills
                (Engine l kk (Some (length row)) cnt (Some b)
                        (Some (i :: i' :: rest')))
                row eq_refl eq_refl eq_refl Hs Hi eq_refl
                ltac:(discriminate)) as [-> _].
    split; [reflexivity|]. cbn [snd ell k N].
    apply consistent_running with (n := n); auto.
    + cbn [length] in Hn |- *. lia.
    + apply set_nth_shape; auto.
    + discriminate.
Qed.




(** Rows of the right length are all accepted. *)
Lemma adds_return (l kk : Z) (m : nat) (rows : list (list F))
      (e : engine F) :
  0 <= l -> 0 < kk -> l < Z.of_nat m ->
  consistent l kk e -> M e = Some m ->
  Forall (fun r => length r = m) rows ->
  fst (add_samples rows e) = map (fun _ => inr tt) rows.
Proof.
  intros Hl Hk Hlm. revert e.
  induction rows as [|row rows IH]; intros e Hre HM Hr; [reflexivity|].
  inversion Hr as [|? ? Hrow Hr']; subst.
  pose proof (add_sample_frame row e) as (_ & _ & _ & HM1 & _).
  cbv zeta in HM1. specialize (HM1 ltac:(congruence)). rewrite HM in HM1.
  assert (Hstep : fst (add_sample row e) = inr tt
                  /\ consistent l kk (snd (add_sample row e))).
  { destruct Hre as [|m' Hge|m' n cnt b zr Hlm' Hn Hs Hzr Hall];
      cbn [fresh M] in HM; try discriminate.
    - injection HM as HM. lia.
    - injection HM as ->.
      exact (add_sample_on_buffer row Hl Hk Hlm Hn Hs Hzr Hall eq_refl). }
  destruct Hstep as [Hout Hre1].
  specialize (IH (snd (add_sample row e)) Hre1 HM1 Hr').
  cbn [add_samples map].
  destruct (add_sample row e) as [r e1]. cbn [fst snd] in Hout, IH.
  destruct (add_samples rows e1) as [rs e2]. cbn [fst] in IH |- *.
  rewrite Hout, IH. reflexivity.
Qed.

(** The same from the new engine. *)
Lemma adds_return_fresh (l kk : Z) (m : nat) (rows : list (list F)) :
  0 <= l -> 0 < kk -> l < Z.of_nat m ->
  Forall (fun r => length r = m) rows ->
  fst (add_samples rows (fresh l kk)) = map (fun _ => inr tt) rows.
Proof.
  intros Hl Hk Hlm Hr.
  destruct rows as [|row rows']; [reflexivity|].
  inversion Hr as [|? ? Hrow Hr']; subst.
  assert (Hfirst : add_sample row (fresh l kk)
                   = add_sample row (allocated l kk (length row)))
    by (exact (add_sample_from_allocated (fresh l kk) row eq_refl Hlm
                 ltac:(simpl; lia))).
  assert (Hall : Forall (fun i => (i < Z.to_nat (l + kk))%nat)
                        (seq 0 (Z.to_nat (l + kk))))
    by (apply Forall_forall; intros i Hi; apply in_seq in Hi; lia).
  assert (Hne : seq 0 (Z.to_nat (l + kk)) <> [])
    by (destruct (Z.to_nat (l + kk)) eqn:E; [lia | discriminate]).
  assert (Hphase :
            (Z.to_nat (l + kk) = Z.to_nat (l + kk) /\
             0 + Z.of_nat (length (seq 0 (Z.to_nat (l + kk)))) = l + kk)
            \/ (Z.to_nat (l + kk)
                = Nat.min (Z.to_nat (l + kk)) (length row) /\
                l + kk <= 0))
    by (left; rewrite length_seq; lia).
  assert (Hal : consistent l kk (allocated l kk (length row))).
  { unfold allocated.
    apply consistent_running with (n := Z.to_nat (l + kk)); auto.
    apply allocated_shape. }
  change (add_samples (row :: rows') (fresh l kk))
    with (let '(r, e') := add_sample row (fresh l kk) in
          let '(rs, e'') := add_samples rows' e' in (r :: rs, e'')).
  rewrite Hfirst.
  exact (adds_return (rows:=row :: rows') Hl Hk Hlm Hal eq_refl Hr).
Qed.
End RunningSteps.

(** ** The shrink step and the free rows *)

Section ShrinkTheorems.
Context {F : Type} `{ScalarLaws F} `{Linalg F}.
Context {contract : SvdContract F}.


(** *** Filling the buffer up to the first shrink *)

Lemma shrink_count_app (rows1 rows2 : list (list F)) (e : engine F) :
  shrink_count (rows1 ++ rows2) e
  = (shrink_count rows1 e
     + shrink_count rows2 (snd (add_samples rows1 e)))%nat.
Proof.
  revert e. induction rows1 as [|row rows1 IH]; intros e; simpl.
  - reflexivity.
  - rewrite IH. destruct (add_sample row e) as [r e1]. simpl.
    destruct (add_samples rows1 e1) as [rs e2]. simpl. lia.
Qed.

Lemma fill_run (l kk : Z) (m n : nat) (rows : list (list F)) :
  forall (zr1 zr2 : list nat) (b : matrix F) (cnt : Z),
    length zr1 = length rows -> zr2 <> [] ->
    Forall (fun i => (i < n)%nat) (zr1 ++ zr2) ->
    has_shape n m b ->
    Forall (fun r => length r = m) rows ->
    exists b',
      add_samples rows (Engine l kk (Some m) cnt (Some b) (Some (zr1 ++ zr2)))
      = (map (fun _ => inr tt) rows,
         Engine l kk (Some m) (cnt + Z.of_nat (length rows))
                (Some b') (Some zr2))
      /\ has_shape n m b'
      /\ shrink_count rows
           (Engine l kk (Some m) cnt (Some b) (Some (zr1 ++ zr2))) = 0%nat.
Proof.
  induction rows as [|row rows IH]; intros zr1 zr2 b cnt Hlen Hzr2 Hall Hs Hr.
  - destruct zr1; [|discriminate]. exists b. simpl.
    rewrite Z.add_0_r. auto.
  - destruct zr1 as [|i zr1]; [discriminate|].
    simpl in Hlen. injection Hlen as Hlen.
    inversion Hall as [|? ? Hi Hall']; subst.
    inversion Hr as [|? ? Hrow Hr']; subst.
    assert (Hrest : zr1 ++ zr2 <> []).
    { destruct zr1; simpl; [assumption | discriminate]. }
    destruct (add_sample_fills
                (Engine l kk (Some (length row)) cnt (Some b)
                        (Some (i :: zr1 ++ zr2)))
                row eq_refl eq_refl eq_refl Hs Hi eq_refl Hrest)
      as [Hadd Hent].
    cbn [ell k N] in Hadd.
    destruct (IH zr1 zr2 (set_nth i row b) (cnt + 1) Hlen Hzr2 Hall'
                 (set_nth_shape i row Hs eq_refl) Hr')
      as (b' & Hrun & Hs' & Hcount).
    exists b'. cbn [add_samples shrink_count app].
    rewrite Hadd, Hent. cbn [snd]. rewrite Hrun, Hcount.
    split; [|split; [exact Hs' | reflexivity]].
    cbn [map length]. f_equal. f_equal. lia.
Qed.

(** The first call on a new engine does what it does on the engine
    with the buffer allocated. *)
Lemma first_call_allocated (l kk : Z) (m : nat) (row : list F)
      (rows : list (list F)) :
  length row = m -> l < Z.of_nat m -> 0 <= l + kk ->
  add_samples (row :: rows) (fresh l kk)
  = add_samples (row :: rows) (allocated l kk m)
  /\ shrink_count (row :: rows) (fresh l kk)
     = shrink_count (row :: rows) (allocated l kk m).
Proof.
  intros Hr Hlm Hnn. subst m.
  pose proof (initialize_allocates (fresh l kk) row Hlm Hnn) as Hi.
  pose proof (add_sample_from_allocated (fresh l kk) row eq_refl Hlm Hnn)
    as Hadd.
  cbn [fresh ell k] in Hi, Hadd.
  cbn [add_samples shrink_count]. rewrite Hadd.
  split; [reflexivity|]. f_equal.
  unfold enters_shrink, bind. cbn [is_initialized fresh allocated M].
  change (Engine l kk None 0 None None) with (fresh (F:=F) l kk).
  rewrite Hi. reflexivity.
Qed.

End ShrinkTheorems.

(** ** The shape of the buffer *)

Section BufferShape.
Context {F : Type} `{ScalarLaws F} `{Linalg F}.
Context {contract : SvdContract F}.


End BufferShape.

(** ** What holds in any arithmetic *)

(** Nothing in this section uses a law of the scalars: the statements
    hold of binary64 as they hold of exact numbers, for an [svd] that
    returns factors of the shapes numpy documents. *)
Section AnyArithmetic.
Context {F : Type} `{Scalar F} `{Linalg F}.
Context {contract : SvdContract F}.

Lemma split_last_one {A : Type} (p : nat) (l : list A) :
  length l = S p -> exists l1 a, l = l1 ++ [a] /\ length l1 = p.
Proof.
  intros Hlen. exists (firstn p l).
  pose proof (firstn_skipn p l) as Hsplit.
  assert (Hsk : length (skipn p l) = 1%nat)
    by (rewrite length_skipn; lia).
  destruct (skipn p l) as [|a [|b t]]; try discriminate.
  exists a. split; [symmetry; exact Hsplit|].
  rewrite length_firstn. lia.
Qed.


(** The first [ell+k] rows on the allocated engine: all are stored, and
    the one that takes the last free row shrinks the buffer. *)
Lemma first_round (l kk : Z) (m : nat) (rows : list (list F)) :
  0 <= l -> 0 < kk -> l < Z.of_nat m ->
  Forall (fun r => length r = m) rows ->
  (length rows <= Z.to_nat (l + kk))%nat ->
  let n0 := Z.to_nat (l + kk) in
  exists b zr,
    add_samples rows (allocated l kk m)
    = (map (fun _ => inr tt) rows,
       Engine l kk (Some m) (Z.of_nat (length rows)) (Some b) (Some zr))
    /\ has_shape (if (length rows <? n0)%nat then n0 else Nat.min n0 m) m b
    /\ shrink_count rows (allocated l kk m)
       = (if (length rows <? n0)%nat then 0 else 1)%nat.
Proof.
  intros Hl Hk Hlm Hr Hlen n0.
  assert (Hall : Forall (fun i => (i < n0)%nat) (seq 0 n0))
    by (apply Forall_forall; intros i Hi; apply in_seq in Hi; lia).
  pose proof (allocated_shape (F:=F) l kk m) as Hs. fold n0 in Hs.
  unfold allocated. fold n0.
  destruct (Nat.ltb_spec (length rows) n0) as [Hshort|Hlong].
  - assert (Hseq : seq 0 n0
                   = seq 0 (length rows)
                       ++ seq (length rows) (n0 - length rows)).
    { replace n0 with (length rows + (n0 - length rows))%nat at 1 by lia.
      rewrite seq_app. reflexivity. }
    assert (Hne : seq (length rows) (n0 - length rows) <> []).
    { destruct (n0 - length rows)%nat eqn:E; [lia | discriminate]. }
    rewrite Hseq in Hall |- *.
    destruct (fill_run l kk (seq 0 (length rows)) 0 (length_seq _ _)
                Hne Hall Hs Hr) as (b' & Hrun & Hs' & Hc).
    exists b', (seq (length rows) (n0 - length rows)).
    rewrite Hrun, Hc. split; [|split; [exact Hs' | reflexivity]].
    f_equal.
  - assert (Hn0 : length rows = S (n0 - 1)) by lia.
    destruct (split_last_one rows Hn0) as (rows1 & r1 & -> & Hlen1).
    apply Forall_app in Hr. destruct Hr as [Hrows1 Hlast].
    inversion Hlast as [|? ? Hr1 _]; subst m.
    assert (Hseq : seq 0 n0 = seq 0 (length rows1) ++ [length rows1]).
    { replace n0 with (length rows1 + 1)%nat at 1 by lia.
      rewrite seq_app. reflexivity. }
    rewrite Hseq in Hall |- *.
    destruct (fill_run l kk (seq 0 (length rows1)) (zr2:=[length rows1]) 0
                (length_seq _ _) ltac:(discriminate) Hall Hs Hrows1)
      as (b1 & Hrun1 & Hs1 & Hc1).
    rewrite add_samples_app, shrink_count_app, Hrun1, Hc1. cbn [fst snd].
    assert (Hi : (length rows1 < n0)%nat) by lia.
    assert (Hlt : (Z.to_nat l < Nat.min n0 (length r1))%nat) by lia.
    destruct (add_sample_shrinks
                (Engine l kk (Some (length r1))
                        (0 + Z.of_nat (length rows1)) (Some b1)
                        (Some [length rows1]))
                r1 eq_refl eq_refl eq_refl Hs1 Hi eq_refl Hl Hlt)
      as [Hadd1 Hent1].
    cbn [ell k N] in Hadd1.
    pose proof (set_nth_shape (length rows1) r1 Hs1 eq_refl) as Hfull.
    assert (Hpos : (0 < Nat.min n0 (length r1))%nat) by lia.
    pose proof (shrink_buffer_shape (Z.to_nat l) Hfull Hpos) as Hsb.
    exists (shrink_buffer (set_nth (length rows1) r1 b1) (Z.to_nat l)),
      (zero_sum_rows
         (shrink_buffer (set_nth (length rows1) r1 b1) (Z.to_nat l))).
    cbn [add_samples shrink_count]. rewrite Hadd1, Hent1. cbn [fst snd].
    split; [|split; [exact Hsb | reflexivity]].
    rewrite map_app. cbn [map]. f_equal. f_equal.
    rewrite length_app. cbn [length]. lia.
Qed.

(** The same from the new engine. *)
Lemma first_round_fresh (l kk : Z) (m : nat) (rows : list (list F)) :
  0 <= l -> 0 < kk -> l < Z.of_nat m ->
  Forall (fun r => length r = m) rows ->
  (length rows <= Z.to_nat (l + kk))%nat ->
  let n0 := Z.to_nat (l + kk) in
  fst (add_samples rows (fresh l kk)) = map (fun _ => inr tt) rows
  /\ N (snd (add_samples rows (fresh l kk))) = Z.of_nat (length rows)
  /\ shrink_count rows (fresh l kk)
     = (if (length rows <? n0)%nat then 0 else 1)%nat
  /\ (rows <> [] ->
      exists b, mat_b (snd (add_samples rows (fresh l kk))) = Some b
        /\ has_shape (if (length rows <? n0)%nat then n0 else Nat.min n0 m)
                     m b).
Proof.
  intros Hl Hk Hlm Hr Hlen n0.
  destruct rows as [|row rows'].
  - cbn [add_samples shrink_count fst snd map length fresh N].
    assert (E : (0 <? n0)%nat = true) by (apply Nat.ltb_lt; unfold n0; lia).
    rewrite E. repeat split. intros Hc. congruence.
  - assert (Hrow : length row = m) by (inversion Hr; assumption).
    destruct (first_call_allocated (l:=l) kk row rows' Hrow Hlm
                ltac:(lia)) as [Hfirst Hcount].
    destruct (first_round Hl Hk Hlm Hr Hlen)
      as (b & zr & Hrun & Hs & Hc).
    fold n0 in Hs, Hc.
    rewrite Hfirst, Hcount, Hrun, Hc. cbn [fst snd N mat_b].
    split; [reflexivity|]. split; [reflexivity|]. split; [reflexivity|].
    intros _. exists b. split; [reflexivity | exact Hs].
Qed.






(** C8: on an engine fed by [add_sample] only, starting from a new one,
    [N] is the number of calls that returned normally, and a further
    call adds exactly one to it when it returns normally, with or without
    a shrink, and leaves it alone when it raises.  With [ell >= 0] and
    [k >= 1], up to [ell+k] rows of a length [M > ell] all return, the
    last of [ell+k] with a shrink, and [N] is their number; in exact
    arithmetic (under the laws of the scalars) so do any number of rows
    of that length. *)
Theorem N_counts_successful_adds
    (l : Z) (k0 : option Z) (rows : list (list F)) (row : list F) :
  let e0 := snd (new l k0) in
  let e := snd (add_samples rows e0) in
  N e = Z.of_nat (successes (fst (add_samples rows e0))) /\
  N (snd (add_sample row e))
  = match fst (add_sample row e) with
    | inr _ => N e + 1
    | inl _ => N e
    end /\
  (forall m, 0 <= l -> 0 < k e0 -> l < Z.of_nat m ->
     Forall (fun r => length r = m) rows ->
     Z.of_nat (length rows) <= l + k e0 ->
     fst (add_samples rows e0) = map (fun _ => inr tt) rows /\
     N e = Z.of_nat (length rows) /\
     shrink_count rows e0
     = if Z.of_nat (length rows) =? l + k e0 then 1%nat else 0%nat) /\
  (forall (laws : ScalarLaws F) m, 0 <= l -> 0 < k e0 -> l < Z.of_nat m ->
     Forall (fun r => length r = m) rows ->
     fst (add_samples rows e0) = map (fun _ => inr tt) rows /\
     N e = Z.of_nat (length rows)).
Proof.
  cbv zeta.
  assert (H0' : M (snd (new (F:=F) l k0)) = None
                -> N (snd (new (F:=F) l k0)) = 0) by (intros _; reflexivity).
  assert (Hcount : N (snd (add_samples rows (snd (new (F:=F) l k0))))
                   = Z.of_nat (successes
                                 (fst (add_samples rows
                                         (snd (new (F:=F) l k0)))))).
  { rewrite (add_samples_counter rows _ H0').
    change (N (snd (new (F:=F) l k0))) with 0. lia. }
  split; [exact Hcount|]. split; [|split].
  2:{ intros m Hl Hk Hlm Hrows Hlen.
      set (kk := k (snd (new (F:=F) l k0))) in *.
      assert (E0 : snd (new (F:=F) l k0) = fresh l kk) by reflexivity.
      rewrite E0.
      destruct (first_round_fresh Hl Hk Hlm Hrows ltac:(lia))
        as (Hout & HN & Hc & _).
      split; [exact Hout|]. split; [exact HN|]. rewrite Hc.
      destruct (Nat.ltb_spec (length rows) (Z.to_nat (l + kk)))
        as [Hshort|Hlong];
        destruct (Z.eqb_spec (Z.of_nat (length rows)) (l + kk));
        try reflexivity; lia. }
  2:{ intros laws m Hl Hk Hlm Hrows.
      set (kk := k (snd (new (F:=F) l k0))) in *.
      assert (E0 : snd (new (F:=F) l k0) = fresh l kk) by reflexivity.
      rewrite E0 in Hcount |- *.
      pose proof (@adds_return_fresh F _ laws _ contract l kk m rows
                    Hl Hk Hlm Hrows) as Hout.
      split; [exact Hout|]. rewrite Hcount, Hout.
      unfold successes. f_equal. clear.
      induction rows as [|r rows IH]; [reflexivity|].
      cbn [map filter length]. rewrite IH. reflexivity. }
  pose proof (add_sample_frame row
                (snd (add_samples rows (snd (new (F:=F) l k0)))))
    as (_ & _ & _ & _ & HN).
  cbv zeta in HN. apply HN.
  apply add_samples_counter_zero. exact H0'.
Qed.
End AnyArithmetic.

(* ================================================================== *)
(** * The integer instance satisfies the assumptions *)

#[global] Instance Z_ScalarLaws : ScalarLaws Z.
Proof.
  constructor; unfold le; simpl.
  - reflexivity.
  - reflexivity.
  - apply Z.sub_diag.
  - reflexivity.
  - reflexivity.
  - reflexivity.
  - intros d Hd. apply Z.ltb_lt in Hd. apply Z.ltb_ge. lia.
  - intros d H1 H2. apply Z.ltb_ge in H1, H2. lia.
  - intros a b Ha Hab. apply Z.ltb_ge in Ha, Hab. apply Z.ltb_ge. nia.
  - intros a b Hab. apply Z.ltb_ge in Hab.
    destruct (Z.eq_dec a b) as [->|Hne].
    + right. apply Z.sub_diag.
    + left. apply Z.ltb_lt. lia.
Qed.

(** ** Sorting by weight *)

Section AxisSort.

Lemma insert_desc_In (x z : axis_row) (l : list axis_row) :
  In z (insert_desc x l) <-> z = x \/ In z l.
Proof.
  induction l as [|y t IH]; simpl.
  - intuition congruence.
  - destruct (weight y <=? weight x); simpl.
    + intuition congruence.
    + rewrite IH. intuition congruence.
Qed.

Lemma insert_desc_length (x : axis_row) (l : list axis_row) :
  length (insert_desc x l) = S (length l).
Proof.
  induction l as [|y t IH]; simpl; [reflexivity|].
  destruct (weight y <=? weight x); simpl; congruence.
Qed.

Lemma insert_desc_sorted (x : axis_row) (l : list axis_row) :
  StronglySorted heavier l -> StronglySorted heavier (insert_desc x l).
Proof.
  induction 1 as [|y t Hs IH Hall]; simpl.
  - constructor; constructor.
  - destruct (weight y <=? weight x) eqn:E.
    + apply Z.leb_le in E. constructor.
      * constructor; assumption.
      * constructor; [exact E|].
        rewrite Forall_forall in Hall |- *. intros z Hz.
        specialize (Hall z Hz). unfold heavier in *. lia.
    + apply Z.leb_gt in E. constructor; [exact IH|].
      rewrite Forall_forall in Hall |- *. intros z Hz.
      apply insert_desc_In in Hz. destruct Hz as [->|Hz].
      * unfold heavier. lia.
      * apply Hall, Hz.
Qed.

Lemma sort_desc_In (z : axis_row) (l : list axis_row) :
  In z (sort_desc l) <-> In z l.
Proof.
  induction l as [|x t IH]; simpl; [reflexivity|].
  rewrite insert_desc_In, IH. intuition congruence.
Qed.

Lemma sort_desc_length (l : list axis_row) :
  length (sort_desc l) = length l.
Proof.
  induction l as [|x t IH]; simpl; [reflexivity|].
  rewrite insert_desc_length. congruence.
Qed.

Lemma sort_desc_sorted (l : list axis_row) :
  StronglySorted heavier (sort_desc l).
Proof.
  induction l as [|x t IH]; simpl.
  - constructor.
  - apply insert_desc_sorted, IH.
Qed.

Lemma firstn_sorted {A : Type} (R : A -> A -> Prop) (n : nat)
      (l : list A) :
  StronglySorted R l -> StronglySorted R (firstn n l).
Proof.
  intros Hs. revert n. induction Hs as [|a l Hs IH Hall]; intros [|n];
    simpl; try constructor.
  - apply IH.
  - rewrite Forall_forall in Hall |- *. intros z Hz.
    apply Hall. eapply firstn_subset; eauto.
Qed.

Lemma sorted_weights (l : list axis_row) :
  StronglySorted heavier l ->
  StronglySorted (fun x y : Z => le y x) (map weight l).
Proof.
  induction 1 as [|a l Hs IH Hall]; simpl; constructor.
  - exact IH.
  - rewrite Forall_forall in Hall |- *. intros w Hw.
    apply in_map_iff in Hw. destruct Hw as (z & <- & Hz).
    specialize (Hall z Hz). unfold heavier in Hall.
    unfold le. simpl. apply Z.ltb_ge. exact Hall.
Qed.

Lemma describe_nonneg (ir : nat * list Z) : 0 <= weight (describe ir).
Proof.
  unfold describe. simpl. induction (snd ir) as [|y r IH]; simpl; lia.
Qed.

(** The coordinates in use and the others are at least [m] together. *)
Lemma axes_cover (used : list nat) (m : nat) :
  (m <= length (used ++ filter (fun c => negb (existsb (Nat.eqb c) used))
                               (seq 0 m)))%nat.
Proof.
  rewrite length_app.
  pose proof (filter_length (fun c => existsb (Nat.eqb c) used) (seq 0 m))
    as Hsplit.
  rewrite length_seq in Hsplit.
  assert (Hle : (length (filter (fun c => existsb (Nat.eqb c) used)
                                (seq 0 m)) <= length used)%nat).
  { apply NoDup_incl_length.
    - apply NoDup_filter, seq_NoDup.
    - intros c Hc. apply filter_In in Hc. destruct Hc as [_ Hc].
      apply existsb_exists in Hc. destruct Hc as (u & Hu & E).
      apply Nat.eqb_eq in E. subst u. exact Hu. }
  lia.
Qed.
End AxisSort.

#[global] Instance Z_SvdContract : SvdContract Z.
Proof.
  constructor; intros n m b [Hn Hm];
    assert (Hc : (0 < n)%nat -> ncols b = m)
      by (intros Hpos; destruct b as [|r b]; simpl in *;
          [lia | inversion Hm; assumption]);
    unfold svd_sigma, svd_vt, svd, Z_Linalg, svd_axis; cbn [fst snd].
  - rewrite length_map, length_firstn, sort_desc_length, length_map,
      length_combine, length_seq, Hn.
    destruct n as [|n']; [lia|]. rewrite Hc by lia. lia.
  - split.
    + rewrite length_map, length_firstn.
      match goal with |- context [length (?u ++ filter ?f (seq 0 ?c))] =>
        pose proof (axes_cover u c) as Hcover end.
      rewrite Hn in *.
      destruct n as [|n']; [lia|]. rewrite Hc in * by lia. lia.
    + apply Forall_forall. intros r Hr. apply in_map_iff in Hr.
      destruct Hr as (c & <- & Hin). unfold unit_row.
      rewrite length_map, length_seq.
      destruct n as [|n'].
      * rewrite Hn in Hin. simpl in Hin. contradiction.
      * apply Hc. lia.
  - apply sorted_weights, firstn_sorted, sort_desc_sorted.
  - apply Forall_forall. intros w Hw. apply in_map_iff in Hw.
    destruct Hw as (z & <- & Hz). apply firstn_subset in Hz.
    apply (proj1 (sort_desc_In _ _)) in Hz. apply in_map_iff in Hz.
    destruct Hz as (ir & <- & _).
    unfold le. simpl. apply Z.ltb_ge. apply describe_nonneg.
Qed.

(* ================================================================== *)
(** * Runs on integer data *)

Import Examples.

(** ** The decompositions met in the runs are exact *)

Example decomposition_first_shrink :
  is_decomposition [[20; 0; 0; 0]; [0; 15; 0; 0]; [0; 0; 12; 0]; [0; 0; 0; 4]].
Proof. repeat split. Qed.

Example decomposition_gram_gap : is_decomposition gram_gap.
Proof. repeat split. Qed.

Example decomposition_narrow :
  is_decomposition [[5; 0]; [0; 3]; [0; 0]; [0; 0]]
  /\ is_decomposition [[4; 0]; [0; 0]].
Proof. repeat split. Qed.

(** ** The first row decides [M] *)

(** The example of the specification: with [ell = 5] a first row of
    length 5 is refused and leaves [M] set with nothing allocated, a first
    row of length 6 is accepted. *)
Example first_row_of_length_ell :
  add_sample [1; 2; 3; 4; 5] (snd (new (F:=Z) 5 None))
  = (inl DimensionError, Engine 5 11 (Some 5%nat) 0 None None)
  /\ fst (add_sample [1; 2; 3; 4; 5; 6] (snd (new (F:=Z) 5 None))) = inr tt.
Proof. split; reflexivity. Qed.


(** ** Retrieval *)

Lemma get_result_boundary_witness :
  mat_b after5
  = Some [[16; 0; 0; 0]; [0; 9; 0; 0]; [0; 0; 76; 0]; [0; 0; 0; 0]] /\
  N after5 = ell after5 + k after5 + 1 /\
  0 <= ell after5 /\
  fst (get_result false after5) = inr sketch5.
Proof.
  destruct (get_result_boundary after5 false) as (_ & _ & Hok).
  assert (Hb : mat_b after5
               = Some [[16; 0; 0; 0]; [0; 9; 0; 0]; [0; 0; 76; 0];
                       [0; 0; 0; 0]]) by reflexivity.
  assert (HN : N after5 = ell after5 + k after5 + 1) by reflexivity.
  assert (Hl : 0 <= ell after5) by (simpl; lia).
  destruct (Hok _ Hb HN) as [Hres _].
  exact (conj Hb (conj HN (conj Hl Hres))).
Defined.

Lemma get_result_reset_witness :
  get_result true after5 = (inr sketch5, engine22) /\
  is_initialized engine22 = false /\
  forall rows, add_samples rows engine22
               = add_samples rows (snd (new (ell after5) (Some (k after5)))).
Proof.
  assert (Hcall : get_result true after5 = (inr sketch5, engine22))
    by reflexivity.
  destruct (get_result_reset after5 Hcall)
    as (_ & _ & _ & Hi & _ & _ & _ & _ & Hrun).
  exact (conj Hcall (conj Hi Hrun)).
Defined.

(** ** Rows of the wrong length *)

Lemma mismatched_row_outcome_witness :
  let e := snd (add_sample [5; 0] (snd (new (F:=Z) 1 (Some 2)))) in
  M e = Some 2%nat /\
  length [7; 1; 1] <> 2%nat /\ length [7; 1; 1] <> 1%nat /\
  add_sample [7; 1; 1] e = (inl BroadcastError, e).
Proof.
  cbv zeta.
  set (e := snd (add_sample [5; 0] (snd (new (F:=Z) 1 (Some 2))))).
  assert (Hs : has_shape 3 2 [[5; 0]; [0; 0]; [0; 0]])
    by (split; [reflexivity | repeat constructor]).
  assert (Hi : (1 < 3)%nat) by lia.
  assert (Hlen : length [7; 1; 1] <> 2%nat) by discriminate.
  assert (Hone : length [7; 1; 1] <> 1%nat) by discriminate.
  destruct (mismatched_row_outcome e [7; 1; 1]
              (m:=2) (b:=[[5; 0]; [0; 0]; [0; 0]]) (i:=1%nat) (rest:=[2%nat])
              eq_refl eq_refl eq_refl Hs Hi Hlen) as [Hbad _].
  exact (conj eq_refl (conj Hlen (conj Hone (Hbad Hone)))).
Defined.

(** ** The shrink on the fourth of the five rows *)


(** ** Free rows and the shape of the buffer *)



Lemma N_counts_successful_adds_witness :
  0 <= 2 /\ 0 < k engine22 /\ 2 < Z.of_nat 4 /\
  Forall (fun r => length r = 4%nat) (firstn 4 rows5) /\
  Z.of_nat (length (firstn 4 rows5)) <= 2 + k engine22 /\
  fst (add_samples (firstn 4 rows5) engine22)
  = [inr tt; inr tt; inr tt; inr tt] /\
  N (snd (add_samples (firstn 4 rows5) engine22)) = 4 /\
  shrink_count (firstn 4 rows5) engine22 = 1%nat /\
  fst (add_sample [0; 0; 76; 0] (snd (add_samples (firstn 4 rows5) engine22)))
  = inr tt /\
  N (snd (add_sample [0; 0; 76; 0]
            (snd (add_samples (firstn 4 rows5) engine22)))) = 4 + 1.
Proof.
  assert (Hl : 0 <= 2) by lia.
  assert (Hk : 0 < k engine22) by (simpl; lia).
  assert (Hlm : 2 < Z.of_nat 4) by (simpl; lia).
  assert (Hrows : Forall (fun r => length r = 4%nat) (firstn 4 rows5))
    by (repeat constructor).
  assert (Hlen : Z.of_nat (length (firstn 4 rows5)) <= 2 + k engine22)
    by (simpl; lia).
  destruct (N_counts_successful_adds 2 (Some 2) (firstn 4 rows5)
              [0; 0; 76; 0]) as (_ & Hstep & Hround & Hany).
  destruct (Hround 4%nat Hl Hk Hlm Hrows Hlen) as (_ & _ & Hc).
  destruct (Hany Z_ScalarLaws 4%nat Hl Hk Hlm Hrows) as (Hout & HN).
  exact (conj Hl (conj Hk (conj Hlm (conj Hrows (conj Hlen
          (conj Hout (conj HN (conj Hc (conj eq_refl Hstep))))))))).
Defined.


(** ** The error bound *)

Lemma gram_gap_value :
  gram_gap = [[144; 0; 0; 0]; [0; 144; 0; 0]; [0; 0; 5920; 0]; [0; 0; 0; 16]].
Proof. reflexivity. Qed.

Lemma gram_gap_norm : is_spectral_norm gram_gap 5920.
Proof.
  rewrite gram_gap_value. split; [split|].
  - reflexivity.
  - intros x Hx.
    destruct x as [|a [|b [|c [|d [|? ?]]]]]; try discriminate.
    cbv [le mat_vec inner vsum zip_mul map fold_left mul add zero ltb
         Z_Scalar].
    apply Z.ltb_ge. nia.
  - intros t [Ht Hbound].
    specialize (Hbound [0; 0; 1; 0] eq_refl).
    cbv [le mat_vec inner vsum zip_mul map fold_left mul add zero ltb
         Z_Scalar] in Ht, Hbound |- *.
    apply Z.ltb_ge in Ht, Hbound. apply Z.ltb_ge. nia.
Qed.

(** C3 on the code: five rows of length 4 through an engine with
    [ell = 2], [k = 2].  All calls return, [get_result] returns the first
    two buffer rows and leaves out the third, which holds the fifth input
    row.  The error [calculateError] computes is 5920, the spectral norm
    of the difference of the Gram matrices, while
    [squaredFrobeniusNorm(A) / ell] is 6561 / 2. *)
Theorem error_bound_violated :
  ell engine22 = 2 /\ k engine22 = 2 /\
  Forall (fun r => length r = 4%nat) rows5 /\
  Z.of_nat (length rows5) > ell engine22 + k engine22 /\
  fst (add_samples rows5 engine22) = [inr tt; inr tt; inr tt; inr tt; inr tt] /\
  mat_b after5
  = Some [[16; 0; 0; 0]; [0; 9; 0; 0]; [0; 0; 76; 0]; [0; 0; 0; 0]] /\
  get_result false after5 = (inr sketch5, after5) /\
  calculateError rows5 sketch5 = 5920 /\
  is_spectral_norm gram_gap 5920 /\
  squaredFrobeniusNorm rows5 = 6561 /\
  6561 < ell engine22 * calculateError rows5 sketch5.
Proof.
  repeat split; try reflexivity; try apply gram_gap_norm.
  repeat constructor.
Qed.

(** ** Outside the assumptions *)

(** A refused first row leaves [M] set: the engine counts as initialized
    and the next call, whatever its row, stops on the missing free list. *)
Example refused_first_row_blocks_engine :
  let e := snd (add_sample [1; 2; 3; 4; 5] (snd (new (F:=Z) 5 None))) in
  is_initialized e = true /\
  add_sample [1; 2; 3; 4; 5; 6] e = (inl TypeError, e).
Proof. split; reflexivity. Qed.

(** With [k = 0] the buffer has [ell] rows and position [ell] of the
    singular values does not exist: the call that fills the buffer stops
    inside the shrink with the free list empty, and the next call stops
    at [zero_rows[0]]. *)
Example no_slack_no_free_row :
  fst (add_samples [[5; 1]; [7; 1]] (snd (new (F:=Z) 1 (Some 0))))
  = [inl IndexError; inl IndexError] /\
  zero_rows (snd (add_sample [5; 1] (snd (new (F:=Z) 1 (Some 0)))))
  = Some [].
Proof. split; reflexivity. Qed.

(* ================================================================== *)
(** * Further properties of the methods *)

(** ** [M], [ell] and [k] over a sequence of calls *)

Section Dimension.
Context {F : Type} `{Scalar F} `{Linalg F}.

(** Whatever its outcome, a call leaves [M] set: to the value it had, or
    to the length of the row if it had none. *)
Lemma add_sample_M (row : list F) (e : engine F) :
  M (snd (add_sample row e))
  = Some (match M e with Some m => m | None => length row end).
Proof.
  pose proof (add_sample_frame row e) as (_ & _ & _ & Hkeep & _).
  cbv zeta in Hkeep.
  destruct (M e) as [m|] eqn:EM.
  - apply Hkeep. discriminate.
  - rewrite add_sample_stages. unfold is_initialized. rewrite EM.
    pose proof (initialize_frame row e) as (_ & _ & HM1 & _).
    cbv zeta in HM1.
    destruct (initialize row e) as [[x|[]] e1]; simpl in HM1; [exact HM1|].
    pose proof (insert_row_frame row e1) as (_ & _ & HM2 & _).
    cbv zeta in HM2.
    destruct (insert_row row e1) as [[x|[]] e2]; simpl in HM2;
      [simpl; congruence|].
    destruct (zero_rows e2) as [zr|]; [|simpl; congruence].
    pose proof (last_stage_frame zr e2) as (_ & _ & HM3 & _).
    cbv zeta in HM3.
    destruct ((if Nat.eqb (length zr) 0 then shrink else ret tt) e2)
      as [[x|[]] e3]; simpl in HM3 |- *; congruence.
Qed.

Lemma add_samples_params (rows : list (list F)) (e : engine F) :
  ell (snd (add_samples rows e)) = ell e /\
  k (snd (add_samples rows e)) = k e /\
  (forall m, M e = Some m -> M (snd (add_samples rows e)) = Some m).
Proof.
  revert e. induction rows as [|row rows IH]; intros e; simpl.
  - auto.
  - pose proof (add_sample_frame row e) as (Hl & Hk & _ & HM & _).
    cbv zeta in Hl, Hk, HM.
    destruct (add_sample row e) as [r e1]. simpl in Hl, Hk, HM.
    destruct (IH e1) as (Hl1 & Hk1 & HM1).
    destruct (add_samples rows e1) as [rs e2]. simpl in *.
    repeat split; try congruence.
    intros m Hm. apply HM1. rewrite HM; congruence.
Qed.

(** The first row ever passed to [add_sample] decides [M], whether that
    call returns or raises; from then on [is_initialized] is true and
    [M] never changes, and [ell] and [k] are never touched. *)
Theorem first_row_fixes_M
    (row : list F) (rows : list (list F)) (e : engine F) :
  let e' := snd (add_samples (row :: rows) e) in
  ell e' = ell e /\ k e' = k e /\
  is_initialized e' = true /\
  M e' = Some (match M e with Some m => m | None => length row end).
Proof.
  cbv zeta. cbn [add_samples].
  pose proof (add_sample_M row e) as HM.
  pose proof (add_sample_frame row e) as (Hl & Hk & _).
  cbv zeta in Hl, Hk.
  destruct (add_sample row e) as [r e1]. simpl in HM, Hl, Hk.
  destruct (add_samples_params rows e1) as (Hl1 & Hk1 & HM1).
  destruct (add_samples rows e1) as [rs e2]. simpl in *.
  specialize (HM1 _ HM).
  unfold is_initialized. rewrite HM1.
  repeat split; congruence.
Qed.

(** ** A first row that is refused *)

(** With no free list, [add_sample] stops at line 68 and changes
    nothing. *)
Lemma add_sample_without_list (row : list F) (e : engine F) :
  M e <> None -> zero_rows e = None ->
  add_sample row e = (inl TypeError, e).
Proof.
  intros HM Hz. rewrite add_sample_stages. unfold is_initialized.
  destruct (M e); [|congruence]. cbn [ret].
  destruct e as [l kk m cnt b zr]. simpl in Hz. subst zr.
  reflexivity.
Qed.

Lemma add_samples_without_list (rows : list (list F)) (e : engine F) :
  M e <> None -> zero_rows e = None ->
  add_samples rows e = (map (fun _ => inl TypeError) rows, e).
Proof.
  intros HM Hz. induction rows as [|row rows IH]; simpl.
  - reflexivity.
  - rewrite (add_sample_without_list row e HM Hz), IH. reflexivity.
Qed.

(** A first row with [len(row) <= ell] is refused by the [ValueError] of
    line 41, but [M] has been assigned before the test: the engine
    reports itself initialized, every later [add_sample] raises
    [TypeError] on the missing free list and changes nothing, and
    [get_result] has nothing to return. *)
Theorem refused_first_row_blocks
    (l : Z) (k0 : option Z) (row : list F) (rows : list (list F))
    (init : bool) :
  l >= Z.of_nat (length row) ->
  let e1 := snd (add_sample row (snd (new l k0))) in
  fst (add_sample row (snd (new l k0))) = inl DimensionError /\
  is_initialized e1 = true /\
  add_samples rows e1 = (map (fun _ => inl TypeError) rows, e1) /\
  (exists x, get_result init e1 = (inl x, e1)) /\
  (0 <= ell e1 + k e1 -> get_result init e1 = (inl ConfigurationError, e1)).
Proof.
  intros Hge. cbv zeta.
  rewrite (add_sample_refused (snd (new l k0)) row eq_refl Hge).
  cbn [fst snd new __init__ modify ell k N mat_b zero_rows].
  split; [reflexivity|]. split; [reflexivity|]. split.
  - apply add_samples_without_list; [discriminate | reflexivity].
  - unfold get_result, bind, get, raise, subscriptable. cbn [ell k N mat_b].
    split.
    + destruct (_ >=? 0); eexists; reflexivity.
    + intros Hnn. destruct (_ >=? 0) eqn:E; [reflexivity|].
      rewrite Z.geb_leb in E. apply Z.leb_gt in E. lia.
Qed.
End Dimension.

Lemma refused_first_row_blocks_witness :
  5 >= Z.of_nat (length [1; 2; 3; 4; 5]) /\
  add_samples [[1; 2; 3; 4; 5; 6]; [7; 8; 9; 10; 11; 12]]
              (snd (add_sample [1; 2; 3; 4; 5] (snd (new (F:=Z) 5 None))))
  = ([inl TypeError; inl TypeError],
     snd (add_sample [1; 2; 3; 4; 5] (snd (new (F:=Z) 5 None)))).
Proof.
  assert (Hge : 5 >= Z.of_nat (length [1; 2; 3; 4; 5])) by (simpl; lia).
  destruct (refused_first_row_blocks (F:=Z) None [1; 2; 3; 4; 5]
              [[1; 2; 3; 4; 5; 6]; [7; 8; 9; 10; 11; 12]] false Hge)
    as (_ & _ & Hrun & _).
  exact (conj Hge Hrun).
Defined.

(** ** The free list stays increasing *)

Section FreeList.
Context {F : Type} `{Scalar F} `{Linalg F}.









Context {laws : ScalarLaws F} {contract : SvdContract F}.


End FreeList.

(** ** Rows going into free positions *)

Section Filling.
Context {F : Type} `{ScalarLaws F} `{Linalg F}.
Context {contract : SvdContract F}.

Lemma set_nth_same {A : Type} (i : nat) (x : A) (l : list A) :
  (i < length l)%nat -> nth_error (set_nth i x l) i = Some x.
Proof.
  revert i. induction l as [|h t IH]; intros [|i] Hi; simpl in *; try lia.
  - reflexivity.
  - apply IH. lia.
Qed.

Lemma set_nth_other {A : Type} (i p : nat) (x : A) (l : list A) :
  p <> i -> nth_error (set_nth i x l) p = nth_error l p.
Proof.
  revert i p. induction l as [|h t IH]; intros [|i] [|p] Hne; simpl;
    try reflexivity; try congruence.
  apply IH. congruence.
Qed.

(** Fewer rows than free positions: every row is stored, in order, at
    the head of the free list; nothing else in the buffer moves. *)
Lemma fill_contents (l kk : Z) (m n : nat) (rows : list (list F)) :
  forall (zr : list nat) (b : matrix F) (cnt : Z),
    has_shape n m b -> NoDup zr -> Forall (fun i => (i < n)%nat) zr ->
    Forall (fun r => length r = m) rows ->
    (length rows < length zr)%nat ->
    exists b',
      add_samples rows (Engine l kk (Some m) cnt (Some b) (Some zr))
      = (map (fun _ => inr tt) rows,
         Engine l kk (Some m) (cnt + Z.of_nat (length rows))
                (Some b') (Some (skipn (length rows) zr)))
      /\ has_shape n m b'
      /\ shrink_count rows (Engine l kk (Some m) cnt (Some b) (Some zr))
         = 0%nat
      /\ (forall j, (j < length rows)%nat ->
                    nth_error b' (nth j zr 0%nat) = nth_error rows j)
      /\ (forall p, ~ In p (firstn (length rows) zr) ->
                    nth_error b' p = nth_error b p).
Proof.
  induction rows as [|row rows IH]; intros zr b cnt Hs Hnd Hall Hr Hlen.
  - exists b. cbn [add_samples shrink_count map length skipn].
    rewrite Z.add_0_r.
    split; [reflexivity|]. split; [exact Hs|]. split; [reflexivity|].
    split; [intros j Hj; inversion Hj | reflexivity].
  - destruct zr as [|i zr]; [simpl in Hlen; lia|].
    cbn [length] in Hlen.
    inversion Hnd as [|? ? Hni Hnd']; subst.
    inversion Hall as [|? ? Hi Hall']; subst.
    inversion Hr as [|? ? Hrow Hr']; subst.
    assert (Hrest : zr <> []) by (destruct zr; [simpl in Hlen; lia |
                                               discriminate]).
    destruct (add_sample_fills
                (Engine l kk (Some (length row)) cnt (Some b) (Some (i :: zr)))
                row eq_refl eq_refl eq_refl Hs Hi eq_refl Hrest)
      as [Hadd Hent].
    cbn [ell k N] in Hadd.
    destruct (IH zr (set_nth i row b) (cnt + 1)
                 (set_nth_shape i row Hs eq_refl) Hnd' Hall' Hr'
                 ltac:(lia))
      as (b' & Hrun & Hs' & Hcount & Hput & Hkeep).
    exists b'. cbn [add_samples shrink_count].
    rewrite Hadd, Hent. cbn [snd]. rewrite Hrun, Hcount.
    cbn [map length skipn].
    split; [f_equal; f_equal; lia|].
    split; [exact Hs'|]. split; [reflexivity|]. split.
    + intros [|j] Hj; cbn [nth nth_error].
      * rewrite Hkeep.
        -- apply set_nth_same. destruct Hs as [-> _]. exact Hi.
        -- intros Hin. apply Hni. eapply firstn_subset; eauto.
      * apply Hput. lia.
    + intros p Hp. cbn [firstn] in Hp.
      rewrite Hkeep.
      * apply set_nth_other. intros ->. apply Hp. left. reflexivity.
      * intros Hin. apply Hp. right. exact Hin.
Qed.

(** With more free positions than rows to add, every [add_sample]
    returns without a shrink; the rows are found in the buffer at the
    first free positions, in order; the other buffer rows are untouched;
    the free list loses exactly the positions used and [N] counts the
    rows. *)
Theorem free_rows_receive_rows
    (e : engine F) (rows : list (list F)) (m n : nat) (b : matrix F)
    (zr : list nat) :
  M e = Some m -> mat_b e = Some b -> zero_rows e = Some zr ->
  has_shape n m b -> NoDup zr -> Forall (fun i => (i < n)%nat) zr ->
  Forall (fun r => length r = m) rows ->
  (length rows < length zr)%nat ->
  let run := add_samples rows e in
  Forall (eq (inr tt)) (fst run) /\
  shrink_count rows e = 0%nat /\
  N (snd run) = N e + Z.of_nat (length rows) /\
  zero_rows (snd run) = Some (skipn (length rows) zr) /\
  exists b',
    mat_b (snd run) = Some b' /\ has_shape n m b' /\
    (forall j, (j < length rows)%nat ->
               nth_error b' (nth j zr 0%nat) = nth_error rows j) /\
    (forall p, ~ In p (firstn (length rows) zr) ->
               nth_error b' p = nth_error b p).
Proof.
  intros HM Hb Hz Hs Hnd Hall Hr Hlen.
  destruct e as [l kk m0 cnt b0 zr0]. simpl in HM, Hb, Hz. subst m0 b0 zr0.
  destruct (fill_contents l kk cnt Hs Hnd Hall Hr Hlen)
    as (b' & Hrun & Hs' & Hcount & Hput & Hkeep).
  cbv zeta. rewrite Hrun, Hcount. cbn [fst snd N zero_rows mat_b].
  split.
  - apply Forall_forall. intros r Hin. apply in_map_iff in Hin.
    destruct Hin as (x & <- & _). reflexivity.
  - repeat split; try reflexivity. exists b'. auto.
Qed.

(** *** The countdown to the shrink *)


End Filling.

(** ** After a shrink *)

Section AfterShrink.
Context {F : Type} `{ScalarLaws F} `{Linalg F}.
Context {contract : SvdContract F}.

(** From position [l] on, the rows of the buffer assigned by the shrink
    are zero in every entry. *)
Lemma shrink_buffer_tail_zero (n m : nat) (b : matrix F) (l j : nat) :
  has_shape n m b -> (l <= j)%nat -> (j < Nat.min n m)%nat ->
  exists r, nth_error (shrink_buffer b l) j = Some r /\ Forall (eq zero) r.
Proof.
  intros Hs Hlj Hj.
  pose proof (svd_sigma_length Hs) as Hlen.
  pose proof (svd_sigma_sorted Hs) as Hsorted.
  pose proof (svd_sigma_nonneg Hs) as Hnn.
  unfold shrink_buffer.
  set (sg := svd_sigma b) in *.
  set (c := mul (nth l sg zero) (nth l sg zero)).
  apply dot_diagflat_zero_row.
  - rewrite !length_map. lia.
  - rewrite map_map.
    rewrite (nth_indep _ zero (shrink_value (sub (mul zero zero) c)))
      by (rewrite length_map; lia).
    rewrite (map_nth (fun x => shrink_value (sub (mul x x) c))).
    apply shrink_value_nonpos. unfold c.
    destruct (Nat.eq_dec l j) as [->|Hne].
    + right. apply sub_diag.
    + apply sub_nonpos. apply square_mono.
      * rewrite Forall_forall in Hnn. apply Hnn. apply nth_In. lia.
      * apply (sorted_nth zero Hsorted); lia.
Qed.

(** An [add_sample] that runs the shrink leaves a buffer of
    [min rows M] rows whose rows from position [ell] on are all zero, so
    the slice [mat_b[:ell]] of [get_result] cuts off zero vectors only;
    all these positions are free again, at least [min rows M - ell] of
    them. *)
Theorem shrink_leaves_zero_tail
    (e : engine F) (row : list F) (m n : nat) (b : matrix F) (i : nat) :
  M e = Some m -> mat_b e = Some b -> zero_rows e = Some [i] ->
  has_shape n m b -> (i < n)%nat -> length row = m ->
  0 <= ell e -> (Z.to_nat (ell e) < Nat.min n m)%nat ->
  exists b',
    mat_b (snd (add_sample row e)) = Some b' /\
    zero_rows (snd (add_sample row e)) = Some (zero_sum_rows b') /\
    has_shape (Nat.min n m) m b' /\
    Forall (fun r => Forall (eq zero) r) (skipn (Z.to_nat (ell e)) b') /\
    (forall j, (Z.to_nat (ell e) <= j)%nat -> (j < Nat.min n m)%nat ->
               In j (zero_sum_rows b')) /\
    (Nat.min n m - Z.to_nat (ell e) <= length (zero_sum_rows b'))%nat.
Proof.
  intros HM Hb Hz Hs Hi Hr Hl Hlt.
  destruct (add_sample_shrinks e row HM Hb Hz Hs Hi Hr Hl Hlt) as [Hadd _].
  rewrite Hadd. cbn [snd mat_b zero_rows].
  pose proof (set_nth_shape i row Hs Hr) as Hfull.
  set (l := Z.to_nat (ell e)) in *.
  set (b' := shrink_buffer (set_nth i row b) l).
  assert (Hshape : has_shape (Nat.min n m) m b')
    by (apply shrink_buffer_shape; [exact Hfull | lia]).
  assert (Hfree : forall j, (l <= j)%nat -> (j < Nat.min n m)%nat ->
                            In j (zero_sum_rows b')).
  { intros j Hlj Hj.
    destruct (shrink_buffer_tail_zero Hfull Hlj Hj) as (r & Hnth & Hzero).
    eapply zero_row_is_listed; eauto. }
  exists b'. split; [reflexivity|]. split; [reflexivity|].
  split; [exact Hshape|]. split; [|split; [exact Hfree|]].
  - apply Forall_forall. intros r Hin.
    apply In_nth_error in Hin. destruct Hin as (p & Hp).
    rewrite nth_error_skipn in Hp.
    assert (Hlt' : (l + p < Nat.min n m)%nat).
    { destruct Hshape as [Hlen _]. rewrite <- Hlen.
      apply nth_error_Some. congruence. }
    destruct (@shrink_buffer_tail_zero n m (set_nth i row b) l (l + p)%nat
                Hfull ltac:(lia) Hlt') as (r' & Hnth & Hzero).
    fold b' in Hnth. congruence.
  - rewrite <- (length_seq (Nat.min n m - l) l).
    apply NoDup_incl_length; [apply seq_NoDup|].
    intros j Hj. apply in_seq in Hj. apply Hfree; lia.
Qed.
End AfterShrink.

(** ** An engine without slack *)

Section NoSlack.
Context {F : Type} `{ScalarLaws F} `{Linalg F}.
Context {contract : SvdContract F}.

Lemma py_index_beyond {A : Type} (v : list A) (l : Z) :
  0 <= l -> (length v <= Z.to_nat l)%nat -> py_index v l = None.
Proof.
  intros Hl Hlen. unfold py_index.
  assert (E1 : (l <? Z.of_nat (length v)) = false)
    by (apply Z.ltb_ge; lia).
  assert (E2 : (l <? 0) = false) by (apply Z.ltb_ge; lia).
  rewrite E1, E2, !andb_false_r. reflexivity.
Qed.

(** The call that takes the last free row when position [ell] of the
    singular values does not exist: line 80 raises, with the row stored
    and the free list empty. *)
Lemma add_sample_shrink_fails (e : engine F) (row : list F) (m n : nat)
      (b : matrix F) (i : nat) :
  M e = Some m -> mat_b e = Some b -> zero_rows e = Some [i] ->
  has_shape n m b -> (i < n)%nat -> length row = m ->
  0 <= ell e -> (Nat.min n m <= Z.to_nat (ell e))%nat ->
  add_sample row e
  = (inl IndexError,
     Engine (ell e) (k e) (Some m) (N e) (Some (set_nth i row b)) (Some [])).
Proof.
  intros HM Hb Hz Hs Hi Hr Hl Hge.
  pose proof (assign_row_same_width row Hs Hi Hr) as Ha.
  pose proof (insert_row_running row e Hb Hz) as Hins.
  rewrite Ha in Hins.
  rewrite add_sample_stages. unfold is_initialized. rewrite HM.
  cbn [ret]. rewrite Hins. cbn [zero_rows length Nat.eqb].
  pose proof (svd_sigma_length (set_nth_shape i row Hs Hr)) as Hlen.
  unfold shrink, bind, get, subscriptable, ret, raise. cbn [mat_b ell].
  unfold svd_sigma in Hlen.
  destruct (svd (set_nth i row b)) as [[u s] vt]. cbn [fst snd] in Hlen.
  rewrite py_index_beyond by (rewrite ?Hlen; lia).
  rewrite HM. reflexivity.
Qed.

Lemma add_samples_empty_list (rows : list (list F)) (e : engine F) :
  M e <> None -> zero_rows e = Some [] ->
  add_samples rows e = (map (fun _ => inl IndexError) rows, e).
Proof.
  intros HM Hz. induction rows as [|row rows IH]; simpl; [reflexivity|].
  assert (Hadd : add_sample row e = (inl IndexError, e)).
  { rewrite add_sample_stages. unfold is_initialized.
    destruct (M e); [|congruence]. cbn [ret].
    destruct e as [l kk m cnt b zr]. simpl in Hz. subst zr. reflexivity. }
  rewrite Hadd, IH. reflexivity.
Qed.

(** From the allocated engine: [ell+k-1] rows are stored, the next one
    stops in the shrink, and every later call stops at the empty free
    list. *)
Lemma no_slack_run (l kk : Z) (m : nat) (rows : list (list F)) :
  0 <= l -> kk <= 0 -> 1 <= l + kk -> l < Z.of_nat m ->
  Forall (fun r => length r = m) rows ->
  let n0 := Z.to_nat (l + kk) in
  let stored := Nat.min (length rows) (n0 - 1) in
  exists b zr,
    add_samples rows (allocated l kk m)
    = (repeat (inr tt) stored ++ repeat (inl IndexError) (length rows - stored),
       Engine l kk (Some m) (Z.of_nat stored) (Some b) (Some zr)).
Proof.
  intros Hl Hk Hn Hlm Hr n0 stored.
  assert (Hs : has_shape n0 m (repeat (repeat (zero (F:=F)) m) n0))
    by apply allocated_shape.
  assert (Hall : Forall (fun i => (i < n0)%nat) (seq 0 n0))
    by (apply Forall_forall; intros i Hi; apply in_seq in Hi; lia).
  unfold allocated. fold n0.
  destruct (Nat.lt_ge_cases (length rows) n0) as [Hshort|Hlong].
  - assert (Hshort' : (length rows < length (seq 0 n0))%nat)
      by (rewrite length_seq; exact Hshort).
    destruct (fill_contents l kk 0 Hs (seq_NoDup n0 0) Hall Hr Hshort')
      as (b' & Hrun & _).
    exists b', (skipn (length rows) (seq 0 n0)).
    rewrite Hrun, map_const.
    replace stored with (length rows) by (unfold stored; lia).
    rewrite Nat.sub_diag, app_nil_r. reflexivity.
  - assert (Hst : stored = (n0 - 1)%nat) by (unfold stored; lia).
    assert (Hr' : Forall (fun r => length r = m)
                         (firstn stored rows ++ skipn stored rows))
      by (rewrite firstn_skipn; exact Hr).
    apply Forall_app in Hr'. destruct Hr' as [Hr1 Hr2].
    replace (add_samples rows)
      with (add_samples (firstn stored rows ++ skipn stored rows))
      by (rewrite firstn_skipn; reflexivity).
    assert (Hlen1 : length (firstn stored rows) = stored)
      by (rewrite length_firstn; lia).
    assert (Hshort' : (length (firstn stored rows) < length (seq 0 n0))%nat)
      by (rewrite length_seq, Hlen1; lia).
    destruct (fill_contents l kk 0 Hs (seq_NoDup n0 0) Hall Hr1 Hshort')
      as (b1 & Hrun & Hs1 & _).
    rewrite Hlen1, skipn_seq in Hrun.
    replace (n0 - stored)%nat with 1%nat in Hrun by lia.
    cbn [seq] in Hrun.
    pose proof (length_skipn stored rows) as Hlen2.
    destruct (skipn stored rows) as [|r rest] eqn:Esk;
      [simpl in Hlen2; lia|].
    assert (Hrow : length r = m) by (inversion Hr2; assumption).
    assert (Hi : (0 + stored < n0)%nat) by lia.
    assert (Hge : (Nat.min n0 m <= Z.to_nat l)%nat) by lia.
    pose proof (@add_sample_shrink_fails
                  (Engine l kk (Some m) (0 + Z.of_nat stored) (Some b1)
                          (Some [(0 + stored)%nat]))
                  r m n0 b1 (0 + stored)%nat
                  eq_refl eq_refl eq_refl Hs1 Hi Hrow Hl Hge) as Hfail.
    cbn [ell k N] in Hfail.
    exists (set_nth (0 + stored) r b1), [].
    rewrite add_samples_app, Hrun. cbn [fst snd add_samples].
    rewrite Hfail.
    rewrite add_samples_empty_list by (cbn; congruence).
    rewrite !map_const, Hlen1. cbn [fst snd].
    simpl in Hlen2.
    replace (length rows - stored)%nat with (S (length rest)) by lia.
    reflexivity.
Qed.

(** With [k <= 0] (and [ell >= 0], [ell+k >= 1], rows of a length
    [M > ell]) the constructor and the first [ell+k-1] calls succeed,
    but the shrink can never run: the call that fills the buffer raises
    [IndexError] at [vec_sigma[ell]], every later call raises
    [IndexError] at [zero_rows[0]], [N] stops at [ell+k-1] and
    [get_result] always raises. *)
Theorem no_slack_never_delivers
    (l kk : Z) (m : nat) (rows : list (list F)) (init : bool) :
  0 <= l -> kk <= 0 -> 1 <= l + kk -> l < Z.of_nat m ->
  Forall (fun r => length r = m) rows ->
  let stored := Nat.min (length rows) (Z.to_nat (l + kk) - 1) in
  let run := add_samples rows (snd (new l (Some kk))) in
  fst run
  = repeat (inr tt) stored ++ repeat (inl IndexError) (length rows - stored)
  /\ N (snd run) = Z.of_nat stored
  /\ get_result init (snd run) = (inl ConfigurationError, snd run).
Proof.
  intros Hl Hk Hn Hlm Hr stored run.
  assert (Hraise : forall e0 : engine F,
            N e0 <= ell e0 + k e0 ->
            get_result init e0 = (inl ConfigurationError, e0)).
  { intros e0 Hle. unfold get_result, bind, get, raise.
    destruct (ell e0 + k e0 >=? N e0) eqn:E; [reflexivity|].
    rewrite Z.geb_leb in E. apply Z.leb_gt in E. lia. }
  destruct rows as [|row rows'].
  - unfold run, stored. cbn [add_samples fst snd length Nat.min].
    split; [reflexivity|]. split; [reflexivity|].
    apply Hraise. cbn [new __init__ modify snd ell k N]. lia.
  - assert (Hrow : length row = m) by (inversion Hr; assumption).
    destruct (first_call_allocated (l:=l) kk row rows' Hrow Hlm
                ltac:(lia)) as [Hfirst _].
    destruct (@no_slack_run l kk m (row :: rows') Hl Hk Hn Hlm Hr)
      as (b & zr & Hrun).
    unfold run. cbn [new __init__ modify snd].
    change (Engine l kk None 0 None None) with (fresh (F:=F) l kk).
    rewrite Hfirst, Hrun. cbn [fst snd N].
    split; [reflexivity|]. split; [reflexivity|].
    apply Hraise. cbn [ell k N]. unfold stored. lia.
Qed.
End NoSlack.

(** ** The metric helpers and the order of the rows *)

Section Metrics.
Context {F : Type} `{Scalar F} `{Linalg F}.
Context {sums : SumLaws F}.

Lemma fold_add_permutation (u v : list F) :
  Permutation u v -> forall a, fold_left add u a = fold_left add v a.
Proof.
  induction 1 as [|x u v _ IH|x y u|u v w _ IH1 _ IH2]; intros a; simpl.
  - reflexivity.
  - apply IH.
  - rewrite add_right_comm. reflexivity.
  - rewrite IH1. apply IH2.
Qed.

Lemma vsum_permutation (u v : list F) :
  Permutation u v -> vsum u = vsum v.
Proof. intros Hp. apply fold_add_permutation, Hp. Qed.

Lemma zip_mul_map {A : Type} (f g : A -> F) (l : list A) :
  zip_mul (map f l) (map g l) = map (fun r => mul (f r) (g r)) l.
Proof. induction l as [|r l IH]; simpl; [reflexivity | rewrite IH; reflexivity]. Qed.

(** An entry of the Gram matrix [a.T . a] is a sum over the rows of
    [a]. *)
Lemma gram_entry_permutation (a a' : matrix F) (i j : nat) :
  Permutation a a' ->
  inner (column i a) (column j a) = inner (column i a') (column j a').
Proof.
  intros Hp. unfold inner, column. rewrite !zip_mul_map.
  apply vsum_permutation, Permutation_map, Hp.
Qed.

Lemma ncols_permutation (m : nat) (a a' : matrix F) :
  Forall (fun r => length r = m) a -> Permutation a a' ->
  ncols a = ncols a'.
Proof.
  intros Hm Hp.
  pose proof (Permutation_Forall Hp Hm) as Hm'.
  pose proof (Permutation_length Hp) as Hlen.
  unfold ncols. destruct a as [|r a], a' as [|r' a']; simpl in *;
    try discriminate; [reflexivity|].
  inversion Hm; inversion Hm'; congruence.
Qed.

Lemma gram_permutation (m : nat) (a a' : matrix F) :
  Forall (fun r => length r = m) a -> Permutation a a' ->
  dot (transpose a) a = dot (transpose a') a'.
Proof.
  intros Hm Hp. unfold dot, transpose.
  rewrite <- (ncols_permutation Hm Hp), !map_map.
  apply map_ext. intros i. apply map_ext. intros j.
  apply gram_entry_permutation, Hp.
Qed.

(** [calculateError] does not depend on the order of the rows of either
    matrix: both enter through their Gram matrices only. *)
Theorem calculateError_row_order
    (m m' : nat) (a a' b b' : matrix F) :
  Forall (fun r => length r = m) a -> Permutation a a' ->
  Forall (fun r => length r = m') b -> Permutation b b' ->
  calculateError a b = calculateError a' b'.
Proof.
  intros Ha Hpa Hb Hpb. unfold calculateError.
  rewrite (gram_permutation Ha Hpa), (gram_permutation Hb Hpb).
  reflexivity.
Qed.

Lemma concat_permutation {A : Type} (a a' : list (list A)) :
  Permutation a a' -> Permutation (concat a) (concat a').
Proof.
  induction 1 as [|x u v _ IH|x y u|u v w _ IH1 _ IH2]; simpl.
  - constructor.
  - apply Permutation_app_head, IH.
  - rewrite !app_assoc. apply Permutation_app_tail, Permutation_app_comm.
  - eapply Permutation_trans; eauto.
Qed.

Lemma inner_self (x : list F) :
  inner x x = vsum (map (fun v => mul v v) x).
Proof.
  unfold inner. f_equal.
  induction x as [|v x IH]; simpl; [reflexivity | rewrite IH; reflexivity].
Qed.

(** [squaredFrobeniusNorm] does not depend on the order of the rows. *)
Theorem squaredFrobeniusNorm_row_order (a a' : matrix F) :
  Permutation a a' ->
  squaredFrobeniusNorm a = squaredFrobeniusNorm a'.
Proof.
  intros Hp. unfold squaredFrobeniusNorm, norm_fro.
  rewrite !inner_self.
  rewrite (vsum_permutation
             (Permutation_map (fun v => mul v v) (concat_permutation Hp))).
  reflexivity.
Qed.
End Metrics.

(* ================================================================== *)
(** * Further runs on integer data *)

#[global] Instance Z_SumLaws : SumLaws Z.
Proof. constructor. intros a x y. simpl. lia. Qed.

Lemma calculateError_row_order_witness :
  Permutation rows5 (rev rows5) /\ Permutation sketch5 (rev sketch5) /\
  calculateError rows5 sketch5 = calculateError (rev rows5) (rev sketch5).
Proof.
  assert (Ha : Forall (fun r => length r = 4%nat) rows5)
    by (repeat constructor).
  assert (Hb : Forall (fun r => length r = 4%nat) sketch5)
    by (repeat constructor).
  exact (conj (Permutation_rev rows5)
          (conj (Permutation_rev sketch5)
             (calculateError_row_order Ha (Permutation_rev rows5)
                                       Hb (Permutation_rev sketch5)))).
Defined.

Lemma squaredFrobeniusNorm_row_order_witness :
  Permutation rows5 (rev rows5) /\
  squaredFrobeniusNorm rows5 = squaredFrobeniusNorm (rev rows5).
Proof.
  exact (conj (Permutation_rev rows5)
              (squaredFrobeniusNorm_row_order (Permutation_rev rows5))).
Defined.



Lemma free_rows_receive_rows_witness :
  (length (firstn 3 rows5) < length (seq 0 4))%nat /\
  shrink_count (firstn 3 rows5) (allocated (F:=Z) 2 2 4) = 0%nat /\
  zero_rows (snd (add_samples (firstn 3 rows5) (allocated (F:=Z) 2 2 4)))
  = Some (skipn (length (firstn 3 rows5)) (seq 0 4)).
Proof.
  assert (Hs : has_shape 4 4 (repeat (repeat (zero (F:=Z)) 4) 4))
    by (split; [reflexivity | repeat constructor]).
  assert (Hall : Forall (fun i => (i < 4)%nat) (seq 0 4))
    by (repeat constructor).
  assert (Hr : Forall (fun r => length r = 4%nat) (firstn 3 rows5))
    by (repeat constructor).
  assert (Hlen : (length (firstn 3 rows5) < length (seq 0 4))%nat)
    by (simpl; lia).
  destruct (free_rows_receive_rows (allocated (F:=Z) 2 2 4)
              eq_refl eq_refl eq_refl Hs (seq_NoDup 4 0) Hall Hr Hlen)
    as (_ & Hc & _ & Hz & _).
  exact (conj Hlen (conj Hc Hz)).
Defined.


Lemma shrink_leaves_zero_tail_witness :
  zero_rows after3 = Some [3%nat] /\
  (Z.to_nat (ell after3) < Nat.min 4 4)%nat /\
  exists b',
    mat_b (snd (add_sample [0; 0; 0; 4] after3)) = Some b' /\
    Forall (fun r => Forall (eq 0) r) (skipn (Z.to_nat (ell after3)) b') /\
    (Nat.min 4 4 - Z.to_nat (ell after3) <= length (zero_sum_rows b'))%nat.
Proof.
  assert (Hs : has_shape 4 4
                 [[20; 0; 0; 0]; [0; 15; 0; 0]; [0; 0; 12; 0]; [0; 0; 0; 0]])
    by (split; [reflexivity | repeat constructor]).
  assert (Hi : (3 < 4)%nat) by lia.
  assert (Hl : 0 <= ell after3) by (simpl; lia).
  assert (Hlt : (Z.to_nat (ell after3) < Nat.min 4 4)%nat) by (simpl; lia).
  destruct (shrink_leaves_zero_tail after3 [0; 0; 0; 4]
              (m:=4) (i:=3%nat) eq_refl eq_refl eq_refl Hs Hi eq_refl Hl Hlt)
    as (b' & Hb & _ & _ & Hzero & _ & Hcount).
  exact (conj eq_refl (conj Hlt
          (ex_intro _ b' (conj Hb (conj Hzero Hcount))))).
Defined.

Lemma no_slack_never_delivers_witness :
  0 <= 3 /\ 0 <= 0 /\ 1 <= 3 + 0 /\ 3 < Z.of_nat 4 /\
  fst (add_samples (firstn 4 rows5) (snd (new (F:=Z) 3 (Some 0))))
  = [inr tt; inr tt; inl IndexError; inl IndexError] /\
  N (snd (add_samples (firstn 4 rows5) (snd (new (F:=Z) 3 (Some 0))))) = 2.
Proof.
  assert (Hl : 0 <= 3) by lia.
  assert (Hk : 0 <= 0) by lia.
  assert (Hn : 1 <= 3 + 0) by lia.
  assert (Hlm : 3 < Z.of_nat 4) by (simpl; lia).
  assert (Hr : Forall (fun r => length r = 4%nat) (firstn 4 rows5))
    by (repeat constructor).
  destruct (no_slack_never_delivers (F:=Z) false Hl Hk Hn Hlm Hr)
    as (Hout & HN & _).
  exact (conj Hl (conj Hk (conj Hn (conj Hlm (conj Hout HN))))).
Defined.

(** ** A buffer without rows *)

Section EmptyBuffer.
Context {F : Type} `{Scalar F} `{Linalg F}.

(** With [ell + k <= 0] (and a first row longer than [ell]) no row is
    ever stored.  For [ell + k < 0] the first call stops in [np.zeros],
    after [M] was set, and the later calls stop on the missing free list;
    for [ell + k = 0] the buffer has no rows and every call stops at
    [zero_rows[0]].  [N] stays 0 and the state no longer changes. *)
Theorem empty_buffer_stores_nothing
    (l kk : Z) (row : list F) (rows : list (list F)) :
  l < Z.of_nat (length row) -> l + kk <= 0 ->
  let e1 := snd (add_sample row (snd (new l (Some kk)))) in
  fst (add_sample row (snd (new l (Some kk))))
  = inl (if l + kk <? 0 then NegativeDimensions else IndexError) /\
  N e1 = 0 /\ is_initialized e1 = true /\
  add_samples rows e1
  = (map (fun _ => inl (if l + kk <? 0 then TypeError else IndexError)) rows,
     e1).
Proof.
  intros Hlm Hle. cbv zeta.
  assert (Hge : (l >=? Z.of_nat (length row)) = false)
    by (rewrite Z.geb_leb; apply Z.leb_gt; lia).
  destruct (l + kk <? 0) eqn:Eneg.
  - assert (Hadd : add_sample row (snd (new l (Some kk)))
                   = (inl NegativeDimensions,
                      Engine l kk (Some (length row)) 0 None None)).
    { unfold add_sample, bind, get, is_initialized, initialize, set_M,
        set_N, modify, lift, np_zeros, raise.
      cbn -[Z.geb Z.ltb Z.add Z.of_nat]. rewrite Hge.
      cbn -[Z.geb Z.ltb Z.add Z.of_nat]. rewrite Eneg.
      reflexivity. }
    rewrite Hadd. cbn [fst snd N].
    repeat split.
    apply add_samples_without_list; [discriminate | reflexivity].
  - apply Z.ltb_ge in Eneg.
    assert (Hzero : l + kk = 0) by lia.
    rewrite (add_sample_from_allocated (snd (new l (Some kk))) row
               eq_refl Hlm ltac:(simpl; lia)).
    cbn [new __init__ modify snd ell k]. unfold allocated.
    rewrite Hzero. cbn [Z.to_nat repeat seq].
    assert (Hadd : add_sample row
                     (Engine l kk (Some (length row)) 0 (Some []) (Some []))
                   = (inl IndexError,
                      Engine l kk (Some (length row)) 0 (Some []) (Some []))).
    { rewrite add_sample_stages. reflexivity. }
    rewrite Hadd. cbn [fst snd N].
    repeat split.
    apply add_samples_empty_list; [discriminate | reflexivity].
Qed.
End EmptyBuffer.

Lemma empty_buffer_stores_nothing_witness :
  3 < Z.of_nat (length [1; 2; 3; 4]) /\ 3 + -3 <= 0 /\
  add_samples [[5; 6; 7; 8]]
              (snd (add_sample [1; 2; 3; 4] (snd (new (F:=Z) 3 (Some (-3))))))
  = ([inl IndexError],
     snd (add_sample [1; 2; 3; 4] (snd (new (F:=Z) 3 (Some (-3)))))).
Proof.
  assert (Hlm : 3 < Z.of_nat (length [1; 2; 3; 4])) by (simpl; lia).
  assert (Hle : 3 + -3 <= 0) by lia.
  destruct (empty_buffer_stores_nothing (F:=Z) (-3) [1; 2; 3; 4]
              [[5; 6; 7; 8]] Hlm Hle) as (_ & _ & _ & Hrun).
  exact (conj Hlm (conj Hle Hrun)).
Defined.

(* ================================================================== *)
(** * Runs on binary64 data *)

(** The laws of exact arithmetic stop at the range of binary64: the
    square of [1e200] is infinite and the difference of two infinite
    squares is NaN, which is neither negative nor smaller than anything,
    so that the conditional of line 82 hands it to [math.sqrt] and no
    row sum of the new buffer rounds to zero. *)

Import Float64Data FloatExamples.

Example squares_overflow :
  PrimFloat.mul big big = PrimFloat.infinity /\
  PrimFloat.sub (PrimFloat.mul big big) (PrimFloat.mul big big)
  = not_a_number /\
  ltb not_a_number f0 = false /\
  shrink_value not_a_number = not_a_number /\
  sqrt (max0 not_a_number) = f0 /\
  round7_is_zero not_a_number = false.
Proof. repeat split. Qed.

(** The decomposition taken in the runs: the factors are exact. *)
Example decomposition_overflow_buffer :
  svd overflow_buffer
  = ([[f1; f0]; [f0; f1]], [big; big], [[f1; f0]; [f0; f1]]) /\
  svd [[big; f0; f0]; [f0; big; f0]; [f0; f0; big]]
  = ([[f1; f0; f0]; [f0; f1; f0]; [f0; f0; f1]], [big; big; big],
     [[f1; f0; f0]; [f0; f1; f0]; [f0; f0; f1]]).
Proof. split; reflexivity. Qed.



(** The run of [ell+k+1] rows outside exact arithmetic: with [ell = 1],
    [k = 2] and rows of length 3, three rows of size [1e200] are
    accepted with one shrink, which leaves an all-NaN buffer of the
    expected shape and no free row; the fourth call raises and [N]
    stays at 3. *)
Example overflow_stops_fourth_add :
  Forall (fun r => length r = 3%nat) overflow_rows3 /\
  length overflow_rows3 = S (Z.to_nat (1 + 2)) /\
  fst (add_samples overflow_rows3 engine12)
  = [inr tt; inr tt; inr tt; inl IndexError] /\
  shrink_count overflow_rows3 engine12 = 1%nat /\
  N (snd (add_samples overflow_rows3 engine12)) = 3 /\
  zero_rows (snd (add_samples overflow_rows3 engine12)) = Some [] /\
  exists b, mat_b (snd (add_samples overflow_rows3 engine12)) = Some b
            /\ has_shape 3 3 b.
Proof.
  split; [repeat constructor|].
  split; [reflexivity|]. split; [reflexivity|]. split; [reflexivity|].
  split; [reflexivity|]. split; [reflexivity|].
  eexists. split; [reflexivity|].
  split; [reflexivity | repeat constructor].
Qed.
